(** * imageserver: a shallow embedding of [server.js]

    The conversion engine ([convertImage]), the analysis helpers
    ([getImageInfo], [recommendFormat], [estimateQuality]), the preset table
    ([PRESET_SIZES]) and the three upload handlers (analyze, convert,
    convert-batch) of the Express server, with the image codec ([sharp]), the
    name generator ([uuidv4]) and the file system as an explicit platform. *)

From Stdlib Require Import ZArith QArith Qround String Ascii DecimalString DecimalZ
  DecimalPos Bool List Lia.
From stdpp Require Import base option list gmap strings.
Import ListNotations.

Local Open Scope string_scope.
Local Open Scope Z_scope.

(** ** JavaScript values *)

Module JS.

(** An optional integer field: [undefined], [NaN] (what [parseInt] gives on a
    string with no digits) or an integer. *)
Inductive num := Undefined | NaN | Int (z : Z).

(** Truthiness: [undefined], [NaN] and [0] are falsy. *)
Definition truthy (v : num) : bool :=
  match v with
  | Int z => negb (z =? 0)
  | _ => false
  end.

(** [v || d] for a numeric default [d]. *)
Definition or_default (v : num) (d : Z) : Z :=
  match v with
  | Int z => if z =? 0 then d else z
  | _ => d
  end.

(** A string is truthy when it is defined and not empty. *)
Definition truthy_str (s : option string) : bool :=
  match s with
  | Some (String _ _) => true
  | _ => false
  end.

(** The result of a division of two integers or of a rounding: a rational (the
    IEEE rounding of the quotient is not modelled), an infinity or NaN. *)
Inductive number := Finite (q : Q) | PosInf | NegInf | NotANumber.

(** [a / b]: division by zero does not throw. *)
Definition div (a b : Z) : number :=
  if b =? 0 then
    if a =? 0 then NotANumber else if 0 <? a then PosInf else NegInf
  else Finite (Qred (inject_Z a / inject_Z b)%Q).

(** [x > n]; every comparison with NaN is false. *)
Definition gt (x : number) (n : Z) : bool :=
  match x with
  | Finite q => match Qcompare (inject_Z n) q with Lt => true | _ => false end
  | PosInf => true
  | NegInf => false
  | NotANumber => false
  end.

(** [Number(x.toFixed(2))]: the nearest multiple of 1/100, the larger one on a
    tie; infinities and NaN print and parse back to themselves. The rounding
    is that of the exact quotient: a binary double next to a tie may round
    the other way. *)
Definition toFixed2 (x : number) : number :=
  match x with
  | Finite q =>
      Finite (Qred (Qmake (Qfloor (q * 100 + (1 # 2))%Q) 100))
  | _ => x
  end.

Definition is_finite (x : number) : bool :=
  match x with Finite _ => true | _ => false end.

(** [String.prototype.toLowerCase] on the ASCII letters; the other bytes stay:
    a capital letter outside ASCII is not lowered. *)
Definition lower_ascii (c : ascii) : ascii :=
  let n := N_of_ascii c in
  if ((65 <=? n) && (n <=? 90))%N then ascii_of_N (n + 32) else c.

Fixpoint toLowerCase (s : string) : string :=
  match s with
  | EmptyString => EmptyString
  | String c r => String (lower_ascii c) (toLowerCase r)
  end.

(** [parseInt(s)]: leading white space, an optional sign, an optional [0x]
    prefix, then the longest run of digits; [NaN] when there is none. The
    value is the exact integer: its rounding to a double, above 2^53, is not
    modelled. *)
Definition is_space (c : ascii) : bool :=
  let n := N_of_ascii c in
  (((9 <=? n) && (n <=? 13)) || (n =? 32))%N.

Fixpoint skip_space (s : string) : string :=
  match s with
  | String c r => if is_space c then skip_space r else s
  | EmptyString => EmptyString
  end.

Definition digit (radix : Z) (c : ascii) : option Z :=
  let n := Z.of_N (N_of_ascii c) in
  let d :=
    if (48 <=? n) && (n <=? 57) then n - 48
    else if (97 <=? n) && (n <=? 122) then n - 87
    else if (65 <=? n) && (n <=? 90) then n - 55
    else 36 in
  if d <? radix then Some d else None.

Fixpoint digits (radix : Z) (s : string) (acc : option Z) : option Z :=
  match s with
  | String c r =>
      match digit radix c with
      | Some d => digits radix r (Some (radix * default 0 acc + d))
      | None => acc
      end
  | EmptyString => acc
  end.

Definition parseInt (s : string) : num :=
  let s := skip_space s in
  let '(neg, s) :=
    match s with
    | String "-" r => (true, r)
    | String "+" r => (false, r)
    | _ => (false, s)
    end in
  let '(radix, s) :=
    match s with
    | String "0" (String "x" r) => (16, r)
    | String "0" (String "X" r) => (16, r)
    | _ => (10, s)
    end in
  match digits radix s None with
  | Some n => Int (if neg : bool then - n else n)
  | None => NaN
  end.

(** A decimal numeral, for template strings. *)
Definition show (z : Z) : string := NilZero.string_of_int (Z.to_int z).

End JS.

(** ** Data *)

(** A [Buffer] is its bytes; [buffer.length] is their number. *)
Definition Buffer := list Byte.byte.

Definition buffer_length (b : Buffer) : Z := Z.of_nat (length b).

(** The output encodings of the two [switch] statements of [convertImage]. *)
Inductive Format := JPEG | PNG | WEBP | AVIF | TIFF.

Inductive Fit := FitInside | FitFill.

(** The object handed to [processor.resize]. *)
Record ResizeOptions := {
  ro_width : JS.num;
  ro_height : JS.num;
  ro_fit : Fit;
  ro_withoutEnlargement : bool
}.

(** The object handed to [.jpeg], [.png], [.webp], [.avif] or [.tiff]. *)
Record FormatOptions := {
  fo_quality : Z;
  fo_progressive : option bool
}.

Record Output := {
  out_format : Format;
  out_quality : Z;
  out_progressive : bool
}.

(** A [sharp] pipeline: the input, the resize it will apply and the encoder it
    will run. Nothing is computed before [toBuffer]. *)
Record Processor := {
  p_input : Buffer;
  p_resize : option ResizeOptions;
  p_output : option Output
}.

Definition sharp (input : Buffer) : Processor :=
  {| p_input := input; p_resize := None; p_output := None |}.

(** [processor.resize(ro)] records the options. sharp also checks them in
    this call and throws on a dimension that is not a positive integer; that
    refusal is left to the [sharp_toBuffer] of the pipeline, which a
    conversion to an unsupported format never reaches. *)
Definition resize (ro : ResizeOptions) (p : Processor) : Processor :=
  {| p_input := p_input p; p_resize := Some ro; p_output := p_output p |}.

(** [processor.jpeg(o)] and its siblings set the options they are given and
    keep the others: a [progressive] set earlier stays set. *)
Definition set_format (f : Format) (o : FormatOptions) (p : Processor) : Processor :=
  let kept := from_option out_progressive false (p_output p) in
  {| p_input := p_input p;
     p_resize := p_resize p;
     p_output := Some {| out_format := f;
                         out_quality := fo_quality o;
                         out_progressive := default kept (fo_progressive o) |} |}.

(** What [sharp(buffer).metadata()] resolves to, as far as the server reads it. *)
Record Metadata := {
  md_width : Z;
  md_height : Z;
  md_format : string;
  md_hasAlpha : bool
}.

(** [stats().dominant]. *)
Record Dominant := { dom_r : Z; dom_g : Z; dom_b : Z }.

(** The result of [getImageInfo]. *)
Record ImageInfo := {
  width : Z;
  height : Z;
  format : string;
  size : Z;
  hasAlpha : bool;
  aspectRatio : JS.number
}.

(** The [options] of [convertImage]. *)
Record ConvertOptions := {
  outputFormat : string;
  quality : JS.num;
  opt_width : JS.num;
  opt_height : JS.num;
  maintainAspectRatio : bool;
  targetSizeKB : JS.num
}.

(** ** Requests and responses *)

(** A file as [multer] hands it over. *)
Record Upload := {
  originalname : string;
  mimetype : string;
  file_size : Z;
  file_buffer : Buffer
}.

(** The form fields of [req.body]; a field that was not sent is [None]. *)
Record Body := {
  body_outputFormat : option string;
  body_quality : option string;
  body_width : option string;
  body_height : option string;
  body_maintainAspectRatio : option string;
  body_targetSizeKB : option string;
  body_preset : option string;
  body_settings : option string
}.

Record Request := {
  req_file : option Upload;
  req_files : list Upload;
  req_body : Body;
  req_protocol : string;
  req_host : string
}.

(** The [settings] of a batch, read from the form fields or from the JSON
    text of the [settings] field, with the types of the documented schema. *)
Record Settings := {
  s_outputFormat : option string;
  s_quality : JS.num;
  s_width : JS.num;
  s_height : JS.num;
  s_maintainAspectRatio : option bool;
  s_targetSizeKB : JS.num;
  s_preset : option string
}.

Record OriginalFile := {
  orig_name : string;
  orig_size : Z;
  orig_type : string;
  orig_width : Z;
  orig_height : Z
}.

Record ConvertedFile := {
  conv_name : string;
  conv_size : Z;
  conv_type : string;
  conv_width : Z;
  conv_height : Z;
  conv_url : string
}.

Record ConversionResult := {
  originalFile : OriginalFile;
  convertedFile : ConvertedFile;
  compressionRatio : JS.number;
  finalQuality : JS.num
}.

(** An entry of [results]: [status] is ['success'] or ['failed']. *)
Inductive BatchItemResult :=
  | Success (result : ConversionResult)
  | Failed (name : string) (size : Z) (type : string) (error : string).

Record BatchReport := {
  results : list BatchItemResult;
  totalProcessed : Z;
  totalErrors : Z;
  errors : option (list string)
}.

Record AnalysisResult := {
  colors : list string;
  hasTransparency : bool;
  an_aspectRatio : JS.number;
  recommendedFormat : string;
  estimatedQuality : Z;
  an_width : Z;
  an_height : Z;
  an_format : string;
  an_size : Z
}.

Inductive ResponseBody :=
  | ErrorBody (error : string)
  | AnalysisBody (result : AnalysisResult)
  | ConversionBody (result : ConversionResult)
  | BatchBody (report : BatchReport).

Record Response := { status : Z; body : ResponseBody }.

(** ** The platform and its effects *)

(** What the server does to the outside, in order. [EvConvert] records an entry
    into [convertImage]. *)
Inductive Event :=
  | EvMetadata (b : Buffer)
  | EvStats (b : Buffer)
  | EvConvert (input : Buffer) (options : ConvertOptions)
  | EvToBuffer (p : Processor).

Record World := {
  trace : list Event;
  uuids : nat;
  temp : list (string * Buffer)
}.

Definition initial_world : World := {| trace := []; uuids := 0; temp := [] |}.

(** The codec, the name generator and the file system. A codec call and a
    write either give a value or reject with an error message. The setters of
    a pipeline ([resize], [jpeg], ...) only record their options here: what
    [sharp] would refuse when an option is set, [sharp_toBuffer] refuses when
    the pipeline runs, and the conversion fails with the same message. *)
Record Platform := {
  sharp_metadata : Buffer -> string + Metadata;
  sharp_stats : Buffer -> string + Dominant;
  sharp_toBuffer : Processor -> string + Buffer;
  uuidv4 : nat -> string;
  fs_writeFile : string -> Buffer -> option string
}.

(** A computation returns, throws an [Error] with a message, or is cut by the
    bound on the iterations of a loop. *)
Inductive Outcome (A : Type) :=
  | Returned (a : A)
  | Thrown (message : string)
  | OutOfFuel.
Arguments Returned {A} a.
Arguments Thrown {A} message.
Arguments OutOfFuel {A}.

Definition M (A : Type) : Type := World -> Outcome A * World.

Definition ret {A} (a : A) : M A := fun w => (Returned a, w).

Definition throw {A} (message : string) : M A := fun w => (Thrown message, w).

Definition bind {A B} (c : M A) (k : A -> M B) : M B :=
  fun w =>
    match c w with
    | (Returned a, w') => k a w'
    | (Thrown message, w') => (Thrown message, w')
    | (OutOfFuel, w') => (OutOfFuel, w')
    end.

(** [try { c } catch (error) { handler(error.message) }] *)
Definition try_catch {A} (c : M A) (handler : string -> M A) : M A :=
  fun w =>
    match c w with
    | (Thrown message, w') => handler message w'
    | r => r
    end.

Definition emit (e : Event) : M unit :=
  fun w => (Returned tt, {| trace := trace w ++ [e]; uuids := uuids w; temp := temp w |}).

Definition of_result {A} (r : string + A) : M A :=
  match r with
  | inl message => throw message
  | inr a => ret a
  end.

Declare Scope js_scope.
Delimit Scope js_scope with js.
Notation "'do' x <- c ; k" := (bind c (fun x => k))
  (at level 10, x name, c at level 100, k at level 200) : js_scope.
Local Open Scope js_scope.

Section Server.

Variable P : Platform.

Definition metadata (b : Buffer) : M Metadata :=
  do _ <- emit (EvMetadata b); of_result (sharp_metadata P b).

Definition stats (b : Buffer) : M Dominant :=
  do _ <- emit (EvStats b); of_result (sharp_stats P b).

Definition toBuffer (p : Processor) : M Buffer :=
  do _ <- emit (EvToBuffer p); of_result (sharp_toBuffer P p).

Definition fresh_uuid : M string :=
  fun w => (Returned (uuidv4 P (uuids w)),
            {| trace := trace w; uuids := S (uuids w); temp := temp w |}).

(** ** Utility functions *)

Definition getImageInfo (buffer : Buffer) : M ImageInfo :=
  try_catch
    (do metadata <- metadata buffer;
     ret {| width := md_width metadata;
            height := md_height metadata;
            format := md_format metadata;
            size := buffer_length buffer;
            hasAlpha := md_hasAlpha metadata || false;
            aspectRatio := JS.div (md_width metadata) (md_height metadata) |})
    (fun message => throw ("Failed to get image info: " +:+ message)).

Definition rgb (r g b : Z) : string :=
  "rgb(" +:+ JS.show r +:+ ", " +:+ JS.show g +:+ ", " +:+ JS.show b +:+ ")".

Definition analyzeImageColors (buffer : Buffer) : M (list string) :=
  try_catch
    (do dominant <- stats buffer;
     let colors :=
       [ rgb (dom_r dominant) (dom_g dominant) (dom_b dominant);
         rgb (Z.max 0 (dom_r dominant - 30)) (dom_g dominant) (dom_b dominant);
         rgb (dom_r dominant) (Z.max 0 (dom_g dominant - 30)) (dom_b dominant) ] in
     ret (take 5 colors))
    (fun _ => ret ["#888888"; "#666666"; "#444444"]).

Definition recommendFormat (info : ImageInfo) (hasTransparency : bool) : string :=
  if hasTransparency then "png"
  else if String.eqb (format info) "gif" then "gif"
  else if width info * height info >? 1000000 then "jpeg"
  else "webp".

Definition estimateQuality (size width height : Z) : Z :=
  let pixelDensity := JS.div size (width * height) in
  if JS.gt pixelDensity 3 then 95
  else if JS.gt pixelDensity 2 then 85
  else if JS.gt pixelDensity 1 then 75
  else 65.

(** ** convertImage *)

(** The first [switch]: the encoder and the options of the initial encode. *)
Definition initial_case (quality : Z) (s : string) : option (Format * FormatOptions) :=
  if String.eqb s "jpeg" || String.eqb s "jpg"
  then Some (JPEG, {| fo_quality := quality; fo_progressive := Some true |})
  else if String.eqb s "png"
  then Some (PNG, {| fo_quality := quality; fo_progressive := Some true |})
  else if String.eqb s "webp"
  then Some (WEBP, {| fo_quality := quality; fo_progressive := None |})
  else if String.eqb s "avif"
  then Some (AVIF, {| fo_quality := quality; fo_progressive := None |})
  else if String.eqb s "tiff"
  then Some (TIFF, {| fo_quality := quality; fo_progressive := None |})
  else None.

(** The second [switch], inside the loop: it has no [tiff] case and no
    [default]. *)
Definition loop_case (quality : Z) (s : string) : option (Format * FormatOptions) :=
  if String.eqb s "jpeg" || String.eqb s "jpg"
  then Some (JPEG, {| fo_quality := quality; fo_progressive := None |})
  else if String.eqb s "png"
  then Some (PNG, {| fo_quality := quality; fo_progressive := None |})
  else if String.eqb s "webp"
  then Some (WEBP, {| fo_quality := quality; fo_progressive := None |})
  else if String.eqb s "avif"
  then Some (AVIF, {| fo_quality := quality; fo_progressive := None |})
  else None.

(** [outputBuffer.length > options.targetSizeKB * 1024]; false when the target
    is not a number. *)
Definition exceeds (outputBuffer : Buffer) (targetSizeKB : JS.num) : bool :=
  match targetSizeKB with
  | JS.Int t => buffer_length outputBuffer >? t * 1024
  | _ => false
  end.

Definition maxAttempts : Z := 5.

(** The [while] loop of the size-fitting stage; [fuel] bounds its iterations. *)
Fixpoint fit_loop (fuel : nat) (options : ConvertOptions) (processor : Processor)
    (outputBuffer : Buffer) (quality attempts : Z) : M Buffer :=
  if exceeds outputBuffer (targetSizeKB options) && (quality >? 10)
     && (attempts <? maxAttempts)
  then
    match fuel with
    | O => fun w => (OutOfFuel, w)
    | S fuel =>
        let quality := quality - 15 in
        let attempts := attempts + 1 in
        match loop_case quality (JS.toLowerCase (outputFormat options)) with
        | Some (f, o) =>
            let processor := set_format f o processor in
            do outputBuffer <- toBuffer processor;
            fit_loop fuel options processor outputBuffer quality attempts
        | None =>
            fit_loop fuel options processor outputBuffer quality attempts
        end
    end
  else ret outputBuffer.

(** The processor after the resize stage. *)
Definition resize_stage (inputBuffer : Buffer) (options : ConvertOptions) : Processor :=
  let processor := sharp inputBuffer in
  if JS.truthy (opt_width options) || JS.truthy (opt_height options)
  then resize {| ro_width := opt_width options;
                 ro_height := opt_height options;
                 ro_fit := if maintainAspectRatio options then FitInside else FitFill;
                 ro_withoutEnlargement := true |} processor
  else processor.

Definition convertImage (inputBuffer : Buffer) (options : ConvertOptions) : M Buffer :=
  do _ <- emit (EvConvert inputBuffer options);
  try_catch
    (let processor := resize_stage inputBuffer options in
     match initial_case (JS.or_default (quality options) 80)
                        (JS.toLowerCase (outputFormat options)) with
     | Some (f, o) =>
         let processor := set_format f o processor in
         do outputBuffer <- toBuffer processor;
         if JS.truthy (targetSizeKB options) && exceeds outputBuffer (targetSizeKB options)
         then fit_loop (Z.to_nat maxAttempts) options processor outputBuffer
                       (JS.or_default (quality options) 80) 0
         else ret outputBuffer
     | None => throw ("Unsupported output format: " +:+ outputFormat options)
     end)
    (fun message => throw ("Image conversion failed: " +:+ message)).

Definition saveToTemp (buffer : Buffer) (filename : string) : M unit :=
  fun w =>
    match fs_writeFile P filename buffer with
    | Some message => (Thrown message, w)
    | None => (Returned tt, {| trace := trace w; uuids := uuids w;
                               temp := temp w ++ [(filename, buffer)] |})
    end.

(** ** Preset sizes *)

Definition PRESET_SIZES : gmap string (Z * Z) :=
  list_to_map
    [ ("square-small", (512, 512));
      ("square-large", (1024, 1024));
      ("portrait-small", (512, 768));
      ("portrait-large", (768, 1024));
      ("landscape-small", (768, 512));
      ("landscape-large", (1024, 768));
      ("facebook", (1200, 630));
      ("instagram", (1080, 1080));
      ("twitter", (1200, 675));
      ("linkedin", (1200, 627)) ].

(** [PRESET_SIZES] is an object literal, so [PRESET_SIZES[key]] also finds the
    members every object inherits from [Object.prototype]: functions, and the
    prototype itself under [__proto__]. They are truthy and have no [width]
    and no [height]. *)
Definition Object_prototype : list string :=
  [ "constructor"; "__defineGetter__"; "__defineSetter__"; "hasOwnProperty";
    "__lookupGetter__"; "__lookupSetter__"; "isPrototypeOf";
    "propertyIsEnumerable"; "toString"; "valueOf"; "__proto__";
    "toLocaleString" ].

Inductive Property :=
  | Own (width height : Z)
  | Inherited
  | Missing.

(** [PRESET_SIZES[key]] *)
Definition PRESET_SIZES_get (key : string) : Property :=
  match PRESET_SIZES !! key with
  | Some (w, h) => Own w h
  | None => if bool_decide (key ∈ Object_prototype) then Inherited else Missing
  end.

Definition property_truthy (p : Property) : bool :=
  match p with Missing => false | _ => true end.

Definition property_width (p : Property) : JS.num :=
  match p with Own w _ => JS.Int w | _ => JS.Undefined end.

Definition property_height (p : Property) : JS.num :=
  match p with Own _ h => JS.Int h | _ => JS.Undefined end.

(** The block [if (preset && PRESET_SIZES[preset]) { ... }] that the handlers
    share: it assigns [width] and [height] of [convertOptions]. *)
Definition apply_preset (preset : option string) (convertOptions : ConvertOptions)
    : ConvertOptions :=
  if JS.truthy_str preset && property_truthy (PRESET_SIZES_get (default "" preset))
  then
    let preset := PRESET_SIZES_get (default "" preset) in
    {| outputFormat := outputFormat convertOptions;
       quality := quality convertOptions;
       opt_width := property_width preset;
       opt_height := property_height preset;
       maintainAspectRatio := maintainAspectRatio convertOptions;
       targetSizeKB := targetSizeKB convertOptions |}
  else convertOptions.

(** ** API routes *)

Definition json (b : ResponseBody) : Response := {| status := 200; body := b |}.

Definition error_response (code : Z) (message : string) : Response :=
  {| status := code; body := ErrorBody message |}.

(** [field ? parseInt(field) : otherwise] *)
Definition parse_field (field : option string) (otherwise : JS.num) : JS.num :=
  if JS.truthy_str field then JS.parseInt (default "" field) else otherwise.

(** [field !== 'false'] *)
Definition not_false (field : option string) : bool :=
  match field with
  | Some s => negb (String.eqb s "false")
  | None => true
  end.

(** 1. POST /api/analyze-image *)
Definition analyze_image (req : Request) : M Response :=
  try_catch
    (match req_file req with
     | None => ret (error_response 400 "No file provided")
     | Some file =>
         do info <- getImageInfo (file_buffer file);
         do colors <- analyzeImageColors (file_buffer file);
         let hasTransparency := hasAlpha info in
         let recommendedFormat := recommendFormat info hasTransparency in
         let estimatedQuality := estimateQuality (size info) (width info) (height info) in
         ret (json (AnalysisBody
           {| colors := colors;
              hasTransparency := hasTransparency;
              an_aspectRatio := JS.toFixed2 (aspectRatio info);
              recommendedFormat := recommendedFormat;
              estimatedQuality := estimatedQuality;
              an_width := width info;
              an_height := height info;
              an_format := format info;
              an_size := size info |}))
     end)
    (fun message => ret (error_response 500 message)).

Definition file_url (req : Request) (filename : string) : string :=
  req_protocol req +:+ "://" +:+ req_host req +:+ "/temp/" +:+ filename.

(** The part of a conversion that the single and the batch route share, from
    [convertImage] to the [result] object. *)
Definition convert_and_store (req : Request) (file : Upload) (originalInfo : ImageInfo)
    (format : string) (convertOptions : ConvertOptions) : M ConversionResult :=
  do convertedBuffer <- convertImage (file_buffer file) convertOptions;
  do convertedInfo <- getImageInfo convertedBuffer;
  do uuid <- fresh_uuid;
  let filename := uuid +:+ "." +:+ JS.toLowerCase format in
  do _ <- saveToTemp convertedBuffer filename;
  ret {| originalFile :=
           {| orig_name := originalname file;
              orig_size := size originalInfo;
              orig_type := mimetype file;
              orig_width := width originalInfo;
              orig_height := height originalInfo |};
         convertedFile :=
           {| conv_name := filename;
              conv_size := size convertedInfo;
              conv_type := "image/" +:+ JS.toLowerCase format;
              conv_width := width convertedInfo;
              conv_height := height convertedInfo;
              conv_url := file_url req filename |};
         compressionRatio := JS.toFixed2 (JS.div (size originalInfo) (size convertedInfo));
         finalQuality := quality convertOptions |}.

(** 2. POST /api/convert-image *)
Definition convert_image (req : Request) : M Response :=
  try_catch
    (match req_file req with
     | None => ret (error_response 400 "No file provided")
     | Some file =>
         let b := req_body req in
         if negb (JS.truthy_str (body_outputFormat b))
         then ret (error_response 400 "Output format is required")
         else
           let outputFormat := default "" (body_outputFormat b) in
           do originalInfo <- getImageInfo (file_buffer file);
           let convertOptions :=
             {| outputFormat := JS.toLowerCase outputFormat;
                quality := parse_field (body_quality b) (JS.Int 80);
                opt_width := parse_field (body_width b) JS.Undefined;
                opt_height := parse_field (body_height b) JS.Undefined;
                maintainAspectRatio := not_false (body_maintainAspectRatio b);
                targetSizeKB := parse_field (body_targetSizeKB b) JS.Undefined |} in
           let convertOptions := apply_preset (body_preset b) convertOptions in
           do result <- convert_and_store req file originalInfo outputFormat convertOptions;
           ret (json (ConversionBody result))
     end)
    (fun message => ret (error_response 500 message)).

(** 3. POST /api/convert-batch *)

(** [JSON.parse(req.body.settings)], viewed through the fields the route
    reads: [None] when the text is not JSON, [Some None] when it parses to a
    falsy value. *)
Variable JSON_parse : string -> option (option Settings).

Definition form_settings (b : Body) : Settings :=
  {| s_outputFormat := body_outputFormat b;
     s_quality := parse_field (body_quality b) (JS.Int 80);
     s_width := parse_field (body_width b) JS.Undefined;
     s_height := parse_field (body_height b) JS.Undefined;
     s_maintainAspectRatio := Some (not_false (body_maintainAspectRatio b));
     s_targetSizeKB := parse_field (body_targetSizeKB b) JS.Undefined;
     s_preset := body_preset b |}.

(** [convertOptions] of one item, preset applied. *)
Definition batch_options (settings : Settings) : ConvertOptions :=
  apply_preset (s_preset settings)
    {| outputFormat := JS.toLowerCase (default "" (s_outputFormat settings));
       quality := JS.Int (JS.or_default (s_quality settings) 80);
       opt_width := s_width settings;
       opt_height := s_height settings;
       maintainAspectRatio :=
         match s_maintainAspectRatio settings with Some false => false | _ => true end;
       targetSizeKB := s_targetSizeKB settings |}.

(** The body of the inner [try] for one file. *)
Definition process_file (req : Request) (settings : Settings) (file : Upload)
    : M ConversionResult :=
  do originalInfo <- getImageInfo (file_buffer file);
  convert_and_store req file originalInfo (default "" (s_outputFormat settings))
                    (batch_options settings).

(** What the loop has accumulated: the arrays [results] and [errors] and the
    counter [totalProcessed]. *)
Record BatchState := {
  acc_results : list BatchItemResult;
  acc_errors : list string;
  acc_totalProcessed : Z
}.

(** [for (const file of req.files) { try { ... } catch (error) { ... } }] *)
Fixpoint batch_loop (req : Request) (settings : Settings) (files : list Upload)
    (acc : BatchState) : M BatchState :=
  match files with
  | [] => ret acc
  | file :: files =>
      do acc <- try_catch
        (do result <- process_file req settings file;
         ret {| acc_results := acc_results acc ++ [Success result];
                acc_errors := acc_errors acc;
                acc_totalProcessed := acc_totalProcessed acc + 1 |})
        (fun message =>
         ret {| acc_results :=
                  acc_results acc ++
                  [Failed (originalname file) (file_size file) (mimetype file) message];
                acc_errors :=
                  acc_errors acc ++ [originalname file +:+ ": " +:+ message];
                acc_totalProcessed := acc_totalProcessed acc |});
      batch_loop req settings files acc
  end.

Definition batch_report (acc : BatchState) : BatchReport :=
  {| results := acc_results acc;
     totalProcessed := acc_totalProcessed acc;
     totalErrors := Z.of_nat (length (acc_errors acc));
     errors := if 0 <? Z.of_nat (length (acc_errors acc))
               then Some (acc_errors acc) else None |}.

Definition run_batch (req : Request) (settings : Settings) : M BatchReport :=
  do acc <- batch_loop req settings (req_files req)
              {| acc_results := []; acc_errors := []; acc_totalProcessed := 0 |};
  ret (batch_report acc).

Definition convert_batch (req : Request) : M Response :=
  try_catch
    (match req_files req with
     | [] => ret (error_response 400 "No files provided")
     | _ =>
         let parsed :=
           match body_settings (req_body req) with
           | Some (String c text) => JSON_parse (String c text)
           | _ => Some (Some (form_settings (req_body req)))
           end in
         match parsed with
         | None => ret (error_response 400 "Invalid settings JSON format")
         | Some settings =>
             if negb (JS.truthy_str (settings ≫= s_outputFormat))
             then ret (error_response 400 "Settings with outputFormat are required")
             else
               do report <- run_batch req (default (form_settings (req_body req)) settings);
               ret (json (BatchBody report))
         end
     end)
    (fun message => ret (error_response 500 message)).

End Server.

Arguments PRESET_SIZES_get key : simpl never.

(** ** The geometry of a resize

    [sharp] is not part of the repository. What a resize does to the
    dimensions of an image is a parameter, with two facts of the library's
    documented resize contract: with [withoutEnlargement] an image is not
    scaled up, so that the output can be smaller than the target; and
    [fit: 'fill'] ignores the aspect ratio and stretches to both dimensions. *)

(** From the options of a resize and the source size to the output size. *)
Definition Geometry := ResizeOptions -> Z * Z -> Z * Z.

(** [withoutEnlargement: true] does not scale an axis up. *)
Definition never_enlarges (g : Geometry) : Prop :=
  forall ro sw sh,
    ro_withoutEnlargement ro = true ->
    (g ro (sw, sh)).1 <= sw /\ (g ro (sw, sh)).2 <= sh.

(** [fit: 'fill'] with both dimensions stretches to exactly these dimensions
    when that enlarges neither axis. *)
Definition fill_is_exact (g : Geometry) : Prop :=
  forall ro w h sw sh,
    ro_fit ro = FitFill -> ro_width ro = JS.Int w -> ro_height ro = JS.Int h ->
    0 < w <= sw -> 0 < h <= sh ->
    g ro (sw, sh) = (w, h).

(** The size of the raster a pipeline encodes. *)
Definition output_dimensions (g : Geometry) (source : Z * Z) (p : Processor) : Z * Z :=
  match p_resize p with
  | Some ro => g ro source
  | None => source
  end.

(** A geometry with both facts, for the examples: [fill] sets each axis to the
    request, or leaves it when enlarging is off and the request is larger. The
    other fits are left at the source size, which the examples do not use. *)
Definition fill_axis (withoutEnlargement : bool) (source requested : Z) : Z :=
  if withoutEnlargement && (source <? requested) then source else requested.

Definition fill_geometry : Geometry :=
  fun ro source =>
    match ro_fit ro, ro_width ro, ro_height ro with
    | FitFill, JS.Int w, JS.Int h =>
        if (0 <? w) && (0 <? h)
        then (fill_axis (ro_withoutEnlargement ro) source.1 w,
              fill_axis (ro_withoutEnlargement ro) source.2 h)
        else source
    | _, _, _ => source
    end.

(** ** Platforms for the examples *)

Module Fixture.

Definition bytes (n : Z) : Buffer := repeat Byte.x00 (Z.to_nat n).

Definition opaque_png (w h : Z) : Metadata :=
  {| md_width := w; md_height := h; md_format := "png"; md_hasAlpha := false |}.

(** A codec whose encoders give [size_at quality] bytes and whose decoder
    reports [md] for every buffer. *)
Definition codec (md : Metadata) (size_at : Z -> Z) : Platform :=
  {| sharp_metadata := fun _ => inr md;
     sharp_stats := fun _ => inr {| dom_r := 200; dom_g := 20; dom_b := 30 |};
     sharp_toBuffer := fun p =>
       match p_output p with
       | Some o => inr (bytes (size_at (out_quality o)))
       | None => inl "no output format"
       end;
     uuidv4 := fun n => "uuid" +:+ JS.show (Z.of_nat n);
     fs_writeFile := fun _ _ => None |}.

(** Every encode is 2000 bytes. *)
Definition stubborn : Platform := codec (opaque_png 100 100) (fun _ => 2000).

(** 40 bytes per quality point. *)
Definition linear : Platform := codec (opaque_png 100 100) (fun q => 40 * q).

(** A decoder that rejects the buffers that start with a [0xff] byte. *)
Definition picky : Platform :=
  {| sharp_metadata := fun b =>
       match b with
       | Byte.xff :: _ => inl "Input buffer contains unsupported image format"
       | _ => inr (opaque_png 100 100)
       end;
     sharp_stats := sharp_stats stubborn;
     sharp_toBuffer := sharp_toBuffer stubborn;
     uuidv4 := uuidv4 stubborn;
     fs_writeFile := fs_writeFile stubborn |}.

(** A codec that, like sharp, refuses a quality outside 1..100; the encodes
    it accepts are 2000 bytes. *)
Definition strict : Platform :=
  {| sharp_metadata := sharp_metadata stubborn;
     sharp_stats := sharp_stats stubborn;
     sharp_toBuffer := fun p =>
       match p_output p with
       | Some o =>
           if (1 <=? out_quality o) && (out_quality o <=? 100)
           then inr (bytes 2000)
           else inl ("Expected integer between 1 and 100 for quality but received "
                     +:+ JS.show (out_quality o) +:+ " of type number")
       | None => inl "no output format"
       end;
     uuidv4 := uuidv4 stubborn;
     fs_writeFile := fs_writeFile stubborn |}.

Definition no_json : string -> option (option Settings) := fun _ => None.

Definition options (fmt : string) (q w h : JS.num) (keep : bool) (target : JS.num)
    : ConvertOptions :=
  {| outputFormat := fmt; quality := q; opt_width := w; opt_height := h;
     maintainAspectRatio := keep; targetSizeKB := target |}.

Definition upload (name : string) (b : Buffer) : Upload :=
  {| originalname := name; mimetype := "image/png";
     file_size := buffer_length b; file_buffer := b |}.

Definition form (fmt q w h keep target preset : option string) : Body :=
  {| body_outputFormat := fmt; body_quality := q; body_width := w;
     body_height := h; body_maintainAspectRatio := keep;
     body_targetSizeKB := target; body_preset := preset; body_settings := None |}.

Definition request (files : list Upload) (b : Body) : Request :=
  {| req_file := head files; req_files := files; req_body := b;
     req_protocol := "http"; req_host := "localhost:3005" |}.

(** A temp directory at time 1,000,000 ms: [old.png] was written at 0,
    [edge.png] exactly ten minutes ago, [new.png] a moment ago; [gone.png]
    cannot be read, and [busy.png] is old and cannot be unlinked. *)
Definition statSync (file : string) : string + Z :=
  if String.eqb file "old.png" then inr 0
  else if String.eqb file "older.png" then inr (-5)
  else if String.eqb file "busy.png" then inr 0
  else if String.eqb file "edge.png" then inr 400000
  else if String.eqb file "new.png" then inr 999000
  else inl "ENOENT: no such file or directory".

Definition unlinkSync (file : string) : option string :=
  if String.eqb file "busy.png" then Some "EBUSY: resource busy or locked" else None.

End Fixture.

(** The qualities of the encodes of a run, in order. *)
Definition encode_qualities (events : list Event) : list Z :=
  omap (fun e => match e with
                 | EvToBuffer p => out_quality <$> p_output p
                 | _ => None
                 end) events.

(** ** The upload filter and the error-handling middleware *)

Definition allowedTypes : list string :=
  [ "image/jpeg"; "image/jpg"; "image/png"; "image/webp";
    "image/gif"; "image/bmp"; "image/tiff"; "image/svg+xml";
    "image/x-icon"; "image/vnd.microsoft.icon"; "image/avif" ].

(** [fileFilter]: [None] for [cb(null, true)], the message of the error for
    [cb(new Error(...), false)]. Its argument is [file.mimetype], the type of
    the part as the multipart parser gives it, which is in lower case. *)
Definition fileFilter (mimetype : string) : option string :=
  if bool_decide (mimetype ∈ allowedTypes) then None
  else Some ("Unsupported file type: " +:+ mimetype).

(** [s.includes(sub)] *)
Fixpoint includes (s sub : string) : bool :=
  String.prefix sub s ||
  match s with
  | String _ r => includes r sub
  | EmptyString => false
  end.

(** An error that reaches the middleware: a [multer.MulterError] with its
    [code], or any other [Error]. *)
Inductive RequestError :=
  | MulterError (code message : string)
  | PlainError (message : string).

Definition error_message (error : RequestError) : string :=
  match error with
  | MulterError _ message => message
  | PlainError message => message
  end.

Definition error_middleware (error : RequestError) : Response :=
  let otherwise :=
    if includes (error_message error) "Unsupported file type"
    then {| status := 400; body := ErrorBody (error_message error) |}
    else {| status := 500; body := ErrorBody "Internal server error" |} in
  match error with
  | MulterError code _ =>
      if String.eqb code "LIMIT_FILE_SIZE"
      then {| status := 413;
              body := ErrorBody "File too large. Maximum size is 10MB per file." |}
      else if String.eqb code "LIMIT_FILE_COUNT"
      then {| status := 413;
              body := ErrorBody "Too many files. Maximum is 50 files per batch." |}
      else if String.eqb code "LIMIT_UNEXPECTED_FILE"
      then {| status := 400; body := ErrorBody "Unexpected file field." |}
      else otherwise
  | PlainError _ => otherwise
  end.

(** ** The cleanup of the temp directory *)

Definition TEN_MINUTES : Z := 10 * 60 * 1000.

Section Cleanup.

(** [fsSync.statSync(filePath).mtime.getTime()] and [fsSync.unlinkSync]: each
    can throw. *)
Variable statSync : string -> string + Z.
Variable unlinkSync : string -> option string.

(** [files.forEach(...)] inside the [try]: the names that were unlinked, and
    the message of the error that ended the sweep, if one did. *)
Fixpoint cleanup_each (now : Z) (files : list string) : list string * option string :=
  match files with
  | [] => ([], None)
  | file :: files =>
      match statSync file with
      | inl message => ([], Some message)
      | inr mtime =>
          if now - mtime >? TEN_MINUTES
          then
            match unlinkSync file with
            | Some message => ([], Some message)
            | None =>
                let '(deleted, error) := cleanup_each now files in
                (file :: deleted, error)
            end
          else cleanup_each now files
      end
  end.

(** [cleanupTempFiles], for a listing [readdirSync] of the directory. *)
Definition cleanupTempFiles (now : Z) (readdirSync : string + list string)
    : list string * option string :=
  match readdirSync with
  | inl message => ([], Some message)
  | inr files => cleanup_each now files
  end.

End Cleanup.

(** ** Image enhancement *)

(** The filters the enhancement route adds to a pipeline. *)
Inductive Operation :=
  | Sharpen (sigma m1 m2 : Q)
  | SharpenDefault
  | Median (size : Z)
  | Modulate (brightness : Q) (saturation : option Q)
  | Normalize.

(** The [switch (enhancement)] of the route. *)
Definition enhancement_operations (enhancement : option string) : list Operation :=
  match enhancement with
  | Some s =>
      if String.eqb s "sharpen" then [Sharpen 2 1 2]
      else if String.eqb s "denoise" then [Median 3]
      else if String.eqb s "brighten" then [Modulate (12 # 10) None]
      else if String.eqb s "contrast" then [Modulate 1 (Some (11 # 10)); SharpenDefault]
      else if String.eqb s "auto" then [Normalize; Sharpen (15 # 10) 1 (15 # 10)]
      else [Normalize]
  | None => [Normalize]
  end.

Record EnhancementResult := {
  enh_original_name : string;
  enh_original_size : Z;
  enh_original_width : Z;
  enh_original_height : Z;
  enh_name : string;
  enh_size : Z;
  enh_width : Z;
  enh_height : Z;
  enh_url : string;
  enh_enhancement : string
}.

Inductive EnhanceBody :=
  | EnhanceError (error : string)
  | Enhanced (result : EnhancementResult).

Record EnhanceResponse := { enh_status : Z; enh_body : EnhanceBody }.

(** ** Conversion from a URL *)

(** A field of a JSON or url-encoded body. *)
Inductive Field :=
  | Absent
  | Str (s : string)
  | Num (z : Z)
  | Bool (b : bool).

Definition field_truthy (f : Field) : bool :=
  match f with
  | Absent => false
  | Str s => JS.truthy_str (Some s)
  | Num z => negb (z =? 0)
  | Bool b => b
  end.

(** [parseInt(field)]: a number is printed and read back, [true] has no
    digits. The numbers are the integers that print as their digits (below
    10^21 in absolute value). *)
Definition field_parseInt (f : Field) : JS.num :=
  match f with
  | Str s => JS.parseInt s
  | Num z => JS.Int z
  | _ => JS.NaN
  end.

(** [field ? parseInt(field) : otherwise] *)
Definition parse_json_field (f : Field) (otherwise : JS.num) : JS.num :=
  if field_truthy f then field_parseInt f else otherwise.

(** The body of the URL route, with [imageUrl], [outputFormat] and [preset] as
    the strings of the documented schema. *)
Record UrlBody := {
  url_imageUrl : option string;
  url_outputFormat : option string;
  url_quality : Field;
  url_width : Field;
  url_height : Field;
  url_maintainAspectRatio : Field;
  url_targetSizeKB : Field;
  url_preset : option string
}.

Record UrlResult := {
  sourceUrl : string;
  src_size : Z;
  src_type : string;
  src_width : Z;
  src_height : Z;
  url_convertedFile : ConvertedFile;
  url_compressionRatio : JS.number;
  url_finalQuality : JS.num
}.

Inductive UrlResponseBody :=
  | UrlError (error : string)
  | UrlConverted (result : UrlResult).

Record UrlResponse := { url_status : Z; url_body : UrlResponseBody }.

Definition allowedFormats : list string :=
  [ "jpeg"; "jpg"; "png"; "webp"; "gif"; "bmp"; "tiff"; "avif" ].

Section Routes.

Variable P : Platform.

(** [processor.png({ quality: 90 }).toBuffer()] on a pipeline with filters. *)
Variable sharp_enhance : Buffer -> list Operation -> Z -> string + Buffer.

(** [axios.get(imageUrl, ...)]: the bytes of the response, or the message of
    the error (unreachable, timeout, more than 10 MB). *)
Variable axios_get : string -> string + Buffer.

(** 4. POST /api/enhance-image *)
Definition enhance_image (req : Request) (enhancement : option string)
    : M EnhanceResponse :=
  try_catch
    (match req_file req with
     | None => ret {| enh_status := 400; enh_body := EnhanceError "No file provided" |}
     | Some file =>
         do originalInfo <- getImageInfo P (file_buffer file);
         let operations := enhancement_operations enhancement in
         do enhancedBuffer <- of_result (sharp_enhance (file_buffer file) operations 90);
         do enhancedInfo <- getImageInfo P enhancedBuffer;
         do uuid <- fresh_uuid P;
         let filename := "enhanced_" +:+ uuid +:+ ".png" in
         do _ <- saveToTemp P enhancedBuffer filename;
         ret {| enh_status := 200;
                enh_body := Enhanced
                  {| enh_original_name := originalname file;
                     enh_original_size := size originalInfo;
                     enh_original_width := width originalInfo;
                     enh_original_height := height originalInfo;
                     enh_name := filename;
                     enh_size := size enhancedInfo;
                     enh_width := width enhancedInfo;
                     enh_height := height enhancedInfo;
                     enh_url := file_url req filename;
                     enh_enhancement :=
                       if JS.truthy_str enhancement then default "" enhancement
                       else "auto" |} |}
     end)
    (fun message => ret {| enh_status := 500; enh_body := EnhanceError message |}).

Definition url_error (code : Z) (message : string) : UrlResponse :=
  {| url_status := code; url_body := UrlError message |}.

(** [convertOptions] of the URL route, preset applied. *)
Definition url_options (b : UrlBody) : ConvertOptions :=
  apply_preset (url_preset b)
    {| outputFormat := JS.toLowerCase (default "" (url_outputFormat b));
       quality := parse_json_field (url_quality b) (JS.Int 80);
       opt_width := parse_json_field (url_width b) JS.Undefined;
       opt_height := parse_json_field (url_height b) JS.Undefined;
       maintainAspectRatio :=
         match url_maintainAspectRatio b with Bool false => false | _ => true end;
       targetSizeKB := parse_json_field (url_targetSizeKB b) JS.Undefined |}.

(** POST /api/convert-from-url *)
Definition convert_from_url (req : Request) (b : UrlBody) : M UrlResponse :=
  try_catch
    (if negb (JS.truthy_str (url_imageUrl b))
     then ret (url_error 400 "imageUrl is required")
     else if negb (JS.truthy_str (url_outputFormat b))
     then ret (url_error 400 "outputFormat is required")
     else
       let imageUrl := default "" (url_imageUrl b) in
       let outputFormat := default "" (url_outputFormat b) in
       match axios_get imageUrl with
       | inl message =>
           ret (url_error 400 ("Failed to download image from URL: " +:+ message))
       | inr imageBuffer =>
           do originalInfo <- getImageInfo P imageBuffer;
           if negb (bool_decide (JS.toLowerCase (format originalInfo) ∈ allowedFormats))
           then ret (url_error 400 ("Unsupported image format: " +:+ format originalInfo))
           else
             let convertOptions := url_options b in
             do convertedBuffer <- convertImage P imageBuffer convertOptions;
             do convertedInfo <- getImageInfo P convertedBuffer;
             do uuid <- fresh_uuid P;
             let filename := "url_" +:+ uuid +:+ "." +:+ JS.toLowerCase outputFormat in
             do _ <- saveToTemp P convertedBuffer filename;
             ret {| url_status := 200;
                    url_body := UrlConverted
                      {| sourceUrl := imageUrl;
                         src_size := size originalInfo;
                         src_type := "image/" +:+ format originalInfo;
                         src_width := width originalInfo;
                         src_height := height originalInfo;
                         url_convertedFile :=
                           {| conv_name := filename;
                              conv_size := size convertedInfo;
                              conv_type := "image/" +:+ JS.toLowerCase outputFormat;
                              conv_width := width convertedInfo;
                              conv_height := height convertedInfo;
                              conv_url := file_url req filename |};
                         url_compressionRatio :=
                           JS.toFixed2 (JS.div (size originalInfo) (size convertedInfo));
                         url_finalQuality := quality convertOptions |} |}
       end)
    (fun message => ret (url_error 500 message)).

End Routes.

(** ** The vocabulary of the facts *)

Definition add_events (w : World) (es : list Event) : World :=
  {| trace := trace w ++ es; uuids := uuids w; temp := temp w |}.

Definition settle {A} (r : string + A) : Outcome A :=
  match r with
  | inl message => Thrown message
  | inr a => Returned a
  end.

(** The pipeline of the [k]-th encode: the initial one for [k = 0], then the
    same pipeline with the quality lowered [k] times. *)
Definition attempt (p0 : Processor) (f : Format) (q0 : Z) (k : nat) : Processor :=
  match k with
  | O => p0
  | S _ => set_format f {| fo_quality := q0 - 15 * Z.of_nat k; fo_progressive := None |} p0
  end.

(** The size-fitting stage ends with the [k]-th encode when the codec refuses
    it, when its output fits, when its own quality is 10 or less, or when it
    was the fifth re-encode. *)
Definition stops (P : Platform) (p0 : Processor) (f : Format) (q0 T : Z) (k : nat)
    : Prop :=
  match sharp_toBuffer P (attempt p0 f q0 k) with
  | inl _ => True
  | inr b => buffer_length b <= T * 1024 \/ q0 - 15 * Z.of_nat k <= 10 \/ (5 <= k)%nat
  end.

(** The same options with another spelling of the output format. *)
Definition with_format (s : string) (o : ConvertOptions) : ConvertOptions :=
  {| outputFormat := s; quality := quality o;
     opt_width := opt_width o; opt_height := opt_height o;
     maintainAspectRatio := maintainAspectRatio o;
     targetSizeKB := targetSizeKB o |}.

Definition conversion_failed {A} (message : string) : M A :=
  throw ("Image conversion failed: " +:+ message).

Definition info_of (md : Metadata) (buffer : Buffer) : ImageInfo :=
  {| width := md_width md;
     height := md_height md;
     format := md_format md;
     size := buffer_length buffer;
     hasAlpha := md_hasAlpha md || false;
     aspectRatio := JS.div (md_width md) (md_height md) |}.

(** The [convertOptions] of the single route. *)
Definition single_options (b : Body) : ConvertOptions :=
  apply_preset (body_preset b)
    {| outputFormat := JS.toLowerCase (default "" (body_outputFormat b));
       quality := parse_field (body_quality b) (JS.Int 80);
       opt_width := parse_field (body_width b) JS.Undefined;
       opt_height := parse_field (body_height b) JS.Undefined;
       maintainAspectRatio := not_false (body_maintainAspectRatio b);
       targetSizeKB := parse_field (body_targetSizeKB b) JS.Undefined |}.

(** A computation that always returns or throws. *)
Definition total {A} (c : M A) : Prop := forall w, (c w).1 <> OutOfFuel.

(** What one file of a batch leaves in [results]: the result of its own
    conversion, or its name, size, type and the message of its error. *)
Inductive item_outcome (P : Platform) (req : Request) (settings : Settings)
    (file : Upload) (w : World) : BatchItemResult -> World -> Prop :=
  | item_converted result w' :
      process_file P req settings file w = (Returned result, w') ->
      item_outcome P req settings file w (Success result) w'
  | item_failed message w' :
      process_file P req settings file w = (Thrown message, w') ->
      item_outcome P req settings file w
        (Failed (originalname file) (file_size file) (mimetype file) message) w'.

(** The files are taken in order, each from the world the previous one left,
    failed or not. *)
Inductive batch_outcomes (P : Platform) (req : Request) (settings : Settings)
    : World -> list Upload -> list BatchItemResult -> World -> Prop :=
  | batch_done w : batch_outcomes P req settings w [] [] w
  | batch_next w file files r w1 rs w2 :
      item_outcome P req settings file w r w1 ->
      batch_outcomes P req settings w1 files rs w2 ->
      batch_outcomes P req settings w (file :: files) (r :: rs) w2.

Definition item_name (r : BatchItemResult) : string :=
  match r with
  | Success result => orig_name (originalFile result)
  | Failed name _ _ _ => name
  end.

Definition is_failed (r : BatchItemResult) : bool :=
  match r with Failed _ _ _ _ => true | Success _ => false end.

Definition failures (rs : list BatchItemResult) : nat :=
  length (List.filter is_failed rs).

Definition successes (rs : list BatchItemResult) : nat :=
  length (List.filter (fun r => negb (is_failed r)) rs).

(** The lines of [errors]: [name: message] for each failed file. *)
Definition error_lines (rs : list BatchItemResult) : list string :=
  omap (fun r => match r with
                 | Failed name _ _ message => Some (name +:+ ": " +:+ message)
                 | Success _ => None
                 end) rs.

(** An encode of a conversion of [input] with [options]: it runs on the
    input and the resize of the resize stage, at the first quality [q0] or,
    for a re-encode, at a quality above -5 and at least 15 below [q0]. *)
Definition encode_of (input : Buffer) (options : ConvertOptions) (q0 : Z) (e : Event)
    : Prop :=
  exists p q,
    e = EvToBuffer p /\
    p_input p = input /\
    p_resize p = p_resize (resize_stage input options) /\
    out_quality <$> p_output p = Some q /\
    (q = q0 \/ -5 < q <= q0 - 15).

(** A re-encode of the loop entered with the pipeline [p] at quality [q]. *)
Definition reencode_of (p : Processor) (q : Z) (e : Event) : Prop :=
  exists p' q',
    e = EvToBuffer p' /\
    p_input p' = p_input p /\
    p_resize p' = p_resize p /\
    out_quality <$> p_output p' = Some q' /\
    -5 < q' <= q - 15.

(** The thrown message of a failed conversion. *)
Definition conversion_error {A} (r : string + A) : Outcome A :=
  match r with
  | inl message => Thrown ("Image conversion failed: " +:+ message)
  | inr a => Returned a
  end.

(** The names under which the successes of a batch were stored. *)
Definition stored_names (rs : list BatchItemResult) : list string :=
  omap (fun r => match r with
                 | Success result => Some (conv_name (convertedFile result))
                 | Failed _ _ _ _ => None
                 end) rs.

(** A file of the listing is expired when its modification time can be read
    and lies more than ten minutes before [now]. *)
Definition expired (statSync : string -> string + Z) (now : Z) (file : string) : bool :=
  match statSync file with
  | inr mtime => now - mtime >? TEN_MINUTES
  | inl _ => false
  end.

(** The four fixed answers of the error-handling middleware. *)
Definition fixed_error_responses : list Response :=
  [ {| status := 413; body := ErrorBody "File too large. Maximum size is 10MB per file." |};
    {| status := 413; body := ErrorBody "Too many files. Maximum is 50 files per batch." |};
    {| status := 400; body := ErrorBody "Unexpected file field." |};
    {| status := 500; body := ErrorBody "Internal server error" |} ].

(** The names that the [switch] of the enhancement route knows. *)
Definition enhancements : list string :=
  [ "sharpen"; "denoise"; "brighten"; "contrast"; "auto" ].

(** The text is made of ASCII characters, on which [JS.toLowerCase] is the
    [toLowerCase] of JavaScript. *)
Definition ascii_only (s : string) : bool :=
  forallb (fun c => (N_of_ascii c <? 128)%N) (list_ascii_of_string s).

(** The settings of a batch as the route parses them: from the [settings]
    text when there is one, from the form fields otherwise. *)
Definition batch_settings (JSON_parse : string -> option (option Settings)) (b : Body)
    : option (option Settings) :=
  match body_settings b with
  | Some (String c text) => JSON_parse (String c text)
  | _ => Some (Some (form_settings b))
  end.

(** The message of a conversion that [convertImage] refused for its output
    format [fmt]: an error of the engine. It is the error of the [default]
    case of the switch when no resize is asked for and the format is ASCII;
    sharp checks the options of a resize when [resize] is called, before the
    switch, and may refuse them first. *)
Definition unsupported_format_error (options : ConvertOptions) (fmt message : string)
    : Prop :=
  exists cause,
    message = "Image conversion failed: " +:+ cause /\
    (JS.truthy (opt_width options) || JS.truthy (opt_height options) = false ->
     ascii_only fmt = true ->
     cause = "Unsupported output format: " +:+ JS.toLowerCase fmt).

(** The entry of a file of a batch whose output format the engine refused:
    failed, under the file's name, with the error of the engine when the file
    could be decoded. *)
Definition refused_item (P : Platform) (settings : Settings) (fmt : string)
    (file : Upload) (r : BatchItemResult) : Prop :=
  exists message,
    r = Failed (originalname file) (file_size file) (mimetype file) message /\
    (forall md, sharp_metadata P (file_buffer file) = inr md ->
                unsupported_format_error (batch_options settings) fmt message).

(** * Facts *)

Example toLowerCase_JPG : JS.toLowerCase "JPG" = "jpg".
Proof. reflexivity. Qed.

Example parseInt_samples :
  JS.parseInt "80" = JS.Int 80 /\ JS.parseInt " -12px" = JS.Int (-12) /\
  JS.parseInt "0x1F" = JS.Int 31 /\ JS.parseInt "abc" = JS.NaN /\
  JS.parseInt "0x" = JS.NaN.
Proof. repeat split; reflexivity. Qed.

Example div_samples :
  JS.div 2000 1000 = JS.Finite (2 # 1) /\ JS.div 5 0 = JS.PosInf /\
  JS.div 0 0 = JS.NotANumber /\ JS.toFixed2 (JS.div 2 3) = JS.Finite (67 # 100).
Proof. repeat split; reflexivity. Qed.

(** ** Running the effects *)

Lemma add_events_nil w : add_events w [] = w.
Proof. destruct w. unfold add_events. simpl. by rewrite app_nil_r. Qed.

Lemma add_events_app w es es' :
  add_events (add_events w es) es' = add_events w (es ++ es').
Proof. unfold add_events. simpl. by rewrite app_assoc. Qed.

Lemma emit_run e w : emit e w = (Returned (), add_events w [e]).
Proof. reflexivity. Qed.

Lemma toBuffer_run P p w :
  toBuffer P p w = (settle (sharp_toBuffer P p), add_events w [EvToBuffer p]).
Proof. unfold toBuffer, bind. rewrite emit_run. by destruct (sharp_toBuffer P p). Qed.

Lemma metadata_run P b w :
  metadata P b w = (settle (sharp_metadata P b), add_events w [EvMetadata b]).
Proof. unfold metadata, bind. rewrite emit_run. by destruct (sharp_metadata P b). Qed.

(** ** The two switches *)

(** Case analysis along the tests of a [switch], from a hypothesis on its
    result. *)
Ltac switch_cases H hit :=
  repeat match type of H with
         | (if ?c then _ else _) = _ => destruct c; [hit |]
         end.

Lemma loop_case_of_initial q s f o :
  initial_case q s = Some (f, o) ->
  f <> TIFF ->
  forall q', loop_case q' s = Some (f, {| fo_quality := q'; fo_progressive := None |}).
Proof.
  unfold initial_case, loop_case. intros H Hf q'.
  switch_cases H ltac:(by simplify_eq). discriminate.
Qed.

Lemma loop_case_tiff q s o :
  initial_case q s = Some (TIFF, o) -> forall q', loop_case q' s = None.
Proof.
  unfold initial_case, loop_case. intros H q'.
  switch_cases H ltac:(by simplify_eq). discriminate.
Qed.

Lemma initial_case_quality q s f o :
  initial_case q s = Some (f, o) -> fo_quality o = q.
Proof.
  unfold initial_case. intros H.
  switch_cases H ltac:(by simplify_eq). discriminate.
Qed.

Lemma initial_case_None q q' s : initial_case q s = None -> initial_case q' s = None.
Proof.
  unfold initial_case. intros H.
  switch_cases H ltac:(discriminate). reflexivity.
Qed.

(** ** The size-fitting loop *)

Lemma set_format_attempt p0 f q0 k :
  set_format f {| fo_quality := q0 - 15 * Z.of_nat (S k); fo_progressive := None |}
             (attempt p0 f q0 k)
  = attempt p0 f q0 (S k).
Proof. destruct k; reflexivity. Qed.

Lemma attempt_input p0 f q0 k : p_input (attempt p0 f q0 k) = p_input p0.
Proof. by destruct k. Qed.

Lemma attempt_resize p0 f q0 k : p_resize (attempt p0 f q0 k) = p_resize p0.
Proof. by destruct k. Qed.

Lemma attempt_quality p0 f q0 k :
  (0 < k)%nat ->
  out_quality <$> p_output (attempt p0 f q0 k) = Some (q0 - 15 * Z.of_nat k).
Proof. destruct k; [lia | reflexivity]. Qed.

Section Fitting.

Variable P : Platform.
Variable options : ConvertOptions.
Variables (p0 : Processor) (f : Format) (q0 T : Z).

Hypothesis loop_encoder : forall q,
  loop_case q (JS.toLowerCase (outputFormat options))
  = Some (f, {| fo_quality := q; fo_progressive := None |}).
Hypothesis target : targetSizeKB options = JS.Int T.

(** The loop entered after the [k]-th encode gave [b]: it runs the encodes
    [k + 1] to [n], where [n] is the first encode from [k] on at which the
    stage ends, and gives what the codec gave for the [n]-th. *)
Lemma fit_loop_run fuel : forall k b w,
  (fuel + k = 5)%nat ->
  sharp_toBuffer P (attempt p0 f q0 k) = inr b ->
  exists n, (k <= n <= 5)%nat /\
    fit_loop P fuel options (attempt p0 f q0 k) b (q0 - 15 * Z.of_nat k) (Z.of_nat k) w
    = (settle (sharp_toBuffer P (attempt p0 f q0 n)),
       add_events w (EvToBuffer <$> (attempt p0 f q0 <$> seq (S k) (n - k)))) /\
    stops P p0 f q0 T n /\ forall j, (k <= j < n)%nat -> ~ stops P p0 f q0 T j.
Proof.
  induction fuel as [|fuel IH]; intros k b w Hk Hb.
  - exists k. replace (k - k)%nat with O by lia. simpl.
    replace (Z.of_nat k <? maxAttempts) with false
      by (symmetry; apply Z.ltb_ge; unfold maxAttempts; lia).
    rewrite andb_false_r, add_events_nil, Hb.
    repeat split; try lia. unfold stops. rewrite Hb. right; right; lia.
  - simpl. unfold exceeds at 1. rewrite target.
    destruct (buffer_length b >? T * 1024) eqn:Hsize;
      [destruct (q0 - 15 * Z.of_nat k >? 10) eqn:Hq;
       [destruct (Z.of_nat k <? maxAttempts) eqn:Ha |] |]; simpl.
    + rewrite loop_encoder.
      replace (q0 - 15 * Z.of_nat k - 15) with (q0 - 15 * Z.of_nat (S k)) by lia.
      rewrite set_format_attempt. unfold bind at 1.
      rewrite toBuffer_run.
      assert (Hnot : ~ stops P p0 f q0 T k).
      { unfold stops. rewrite Hb. unfold maxAttempts in Ha. lia. }
      destruct (sharp_toBuffer P (attempt p0 f q0 (S k))) as [message | b'] eqn:Hnext.
      * exists (S k). replace (S k - k)%nat with 1%nat by lia.
        split; [unfold maxAttempts in Ha; lia |]. split; [| split].
        -- rewrite Hnext. reflexivity.
        -- unfold stops. by rewrite Hnext.
        -- intros j Hj. by replace j with k by lia.
      * cbn [settle].
        replace (Z.of_nat k + 1) with (Z.of_nat (S k)) by lia.
        destruct (IH (S k) b' (add_events w [EvToBuffer (attempt p0 f q0 (S k))]))
          as (n & Hn & Hrun & Hstop & Hmin); [lia | done |].
        exists n. split; [lia |]. split; [| split; [done |]].
        -- rewrite add_events_app in Hrun. etrans; [exact Hrun |]. do 2 f_equal.
           replace (n - k)%nat with (S (n - S k)) by lia. reflexivity.
        -- intros j Hj. destruct (decide (j = k)) as [-> | Hne]; [done |].
           apply Hmin. lia.
    + exists k. replace (k - k)%nat with O by lia. simpl. rewrite add_events_nil, Hb.
      repeat split; try lia. unfold stops. rewrite Hb.
      right; right. unfold maxAttempts in Ha. lia.
    + exists k. replace (k - k)%nat with O by lia. simpl. rewrite add_events_nil, Hb.
      repeat split; try lia. unfold stops. rewrite Hb. right; left. lia.
    + exists k. replace (k - k)%nat with O by lia. simpl. rewrite add_events_nil, Hb.
      repeat split; try lia. unfold stops. rewrite Hb. left. lia.
Qed.

End Fitting.

(** A format without a case in the loop: the loop changes nothing and calls
    no encoder. *)
Lemma fit_loop_no_case P options processor outputBuffer fuel :
  (forall q, loop_case q (JS.toLowerCase (outputFormat options)) = None) ->
  forall quality attempts w,
    (5 <= Z.of_nat fuel + attempts) ->
    fit_loop P fuel options processor outputBuffer quality attempts w
    = (Returned outputBuffer, w).
Proof.
  intros Hcase. induction fuel as [|fuel IH]; intros quality attempts w Hfuel; simpl.
  - replace (attempts <? maxAttempts) with false
      by (symmetry; apply Z.ltb_ge; unfold maxAttempts; lia).
    by rewrite andb_false_r.
  - destruct (_ && _); [| done]. rewrite Hcase. apply IH. lia.
Qed.

(** ** convertImage, stage by stage *)

Lemma resize_stage_input input options : p_input (resize_stage input options) = input.
Proof. unfold resize_stage. by destruct (_ || _). Qed.

(** [convertImage] up to the loop: the dispatch, the initial encode and the
    test that opens the size-fitting stage. *)
Lemma convertImage_stages P input options w :
  let q0 := JS.or_default (quality options) 80 in
  convertImage P input options w =
  match initial_case q0 (JS.toLowerCase (outputFormat options)) with
  | None =>
      (Thrown ("Image conversion failed: Unsupported output format: "
               +:+ outputFormat options),
       add_events w [EvConvert input options])
  | Some (f, o) =>
      let p0 := set_format f o (resize_stage input options) in
      let w1 := add_events w [EvConvert input options; EvToBuffer p0] in
      match sharp_toBuffer P p0 with
      | inl message => (Thrown ("Image conversion failed: " +:+ message), w1)
      | inr b =>
          if JS.truthy (targetSizeKB options) && exceeds b (targetSizeKB options)
          then try_catch (fit_loop P (Z.to_nat maxAttempts) options p0 b q0 0)
                         conversion_failed w1
          else (Returned b, w1)
      end
  end.
Proof.
  intros q0. unfold convertImage, bind at 1. rewrite emit_run.
  unfold try_catch at 1. fold q0.
  destruct (initial_case q0 _) as [[f o] |]; [| reflexivity].
  unfold bind. rewrite toBuffer_run, add_events_app. simpl.
  destruct (sharp_toBuffer P _) as [message | b]; simpl; [reflexivity |].
  destruct (_ && _); reflexivity.
Qed.

(** The codec calls of a conversion never run out of iterations. *)
Lemma fit_loop_total P options fuel : forall processor outputBuffer quality attempts w,
  5 <= Z.of_nat fuel + attempts ->
  (fit_loop P fuel options processor outputBuffer quality attempts w).1 <> OutOfFuel.
Proof.
  induction fuel as [|fuel IH]; intros processor outputBuffer quality attempts w Hfuel; simpl.
  - replace (attempts <? maxAttempts) with false
      by (symmetry; apply Z.ltb_ge; unfold maxAttempts; lia).
    by rewrite andb_false_r.
  - destruct (_ && _); [| done].
    destruct (loop_case _ _) as [[f o] |]; [| apply IH; lia].
    unfold bind. rewrite toBuffer_run.
    destruct (sharp_toBuffer P _); simpl; [done | apply IH; lia].
Qed.

Lemma convertImage_total P input options w :
  (convertImage P input options w).1 <> OutOfFuel.
Proof.
  rewrite convertImage_stages. cbv zeta.
  destruct (initial_case _ _) as [[f o] |]; [| done].
  destruct (sharp_toBuffer P _) as [message | b]; [done |].
  destruct (_ && _); [| done].
  unfold try_catch.
  match goal with
  | |- context [fit_loop ?P ?n ?o ?p ?b ?q ?a ?w] =>
      pose proof (fit_loop_total P o n p b q a w) as H;
      destruct (fit_loop P n o p b q a w) as [[r | message |] w']
  end; simpl in *; [done | done | apply H; unfold maxAttempts; lia].
Qed.

(** A format without a case in the first switch. *)
Lemma convertImage_unsupported P input options w :
  initial_case 80 (JS.toLowerCase (outputFormat options)) = None ->
  convertImage P input options w
  = (Thrown ("Image conversion failed: Unsupported output format: "
             +:+ outputFormat options),
     add_events w [EvConvert input options]).
Proof.
  intros Hcase. rewrite convertImage_stages. cbv zeta.
  by rewrite (initial_case_None _ _ _ Hcase).
Qed.

Lemma tiff_or_not (f : Format) : f = TIFF \/ f <> TIFF.
Proof. destruct f; (by left) || (by right). Qed.

(** The outcome of a conversion whose last encode gave [r]. *)
Lemma conversion_error_settle {A} (r : string + A) w :
  (match settle r with
   | Returned a => (Returned a, w)
   | Thrown message => conversion_failed message w
   | OutOfFuel => (OutOfFuel, w)
   end) = (conversion_error r, w).
Proof. by destruct r. Qed.

(** C1 (as amended). A conversion with [targetSizeKB] set makes the encodes
    [0] to [n], with [n <= 5]: the initial one and [n] re-encodes. The [k]-th
    runs at the requested or default quality minus [15 * k], on the pipeline
    of the resize stage (same input, same resize). For [tiff], [n = 0]: it is
    never re-encoded. For the other formats [n] is the first encode at which
    the stage ends: the codec refuses it, or its output fits the target, or
    its own quality is 10 or less, or it is the fifth re-encode; so a
    re-encode goes on only after an encode that exceeds the target, and an
    encode at a quality of 10 or less can happen. The conversion gives what
    the codec gave for encode [n]: its buffer, also when it exceeds the
    target, or its error as [Image conversion failed: ...]. *)
Theorem size_fitting_stage (P : Platform) (input : Buffer) (options : ConvertOptions)
    (f : Format) (o : FormatOptions) (T : Z) (w : World) :
  let q0 := JS.or_default (quality options) 80 in
  let p0 := set_format f o (resize_stage input options) in
  initial_case q0 (JS.toLowerCase (outputFormat options)) = Some (f, o) ->
  targetSizeKB options = JS.Int T -> T <> 0 ->
  exists n, (n <= 5)%nat /\
    convertImage P input options w
    = (conversion_error (sharp_toBuffer P (attempt p0 f q0 n)),
       add_events w (EvConvert input options
                     :: (EvToBuffer <$> (attempt p0 f q0 <$> seq 0 (S n))))) /\
    (f = TIFF -> n = 0%nat) /\
    (f <> TIFF ->
     stops P p0 f q0 T n /\ forall j, (j < n)%nat -> ~ stops P p0 f q0 T j) /\
    (forall k, p_input (attempt p0 f q0 k) = input /\
               p_resize (attempt p0 f q0 k) = p_resize (resize_stage input options) /\
               out_quality <$> p_output (attempt p0 f q0 k) = Some (q0 - 15 * Z.of_nat k)).
Proof.
  intros q0 p0 Hcase Htarget HT.
  assert (Hattempts : forall k,
    p_input (attempt p0 f q0 k) = input /\
    p_resize (attempt p0 f q0 k) = p_resize (resize_stage input options) /\
    out_quality <$> p_output (attempt p0 f q0 k) = Some (q0 - 15 * Z.of_nat k)).
  { intros k. rewrite attempt_input, attempt_resize. split; [| split].
    - apply resize_stage_input.
    - reflexivity.
    - destruct k as [|k]; [| apply attempt_quality; lia].
      simpl. rewrite (initial_case_quality _ _ _ _ Hcase). f_equal. lia. }
  pose proof (convertImage_stages P input options w) as Hrun.
  cbv zeta in Hrun. fold q0 in Hrun. rewrite Hcase in Hrun. fold p0 in Hrun.
  rewrite Htarget in Hrun. cbn [JS.truthy exceeds] in Hrun.
  replace (T =? 0) with false in Hrun by (symmetry; apply Z.eqb_neq; done).
  cbn [negb andb] in Hrun.
  destruct (sharp_toBuffer P p0) as [message | b] eqn:Hfirst.
  { (* the codec refuses the initial encode *)
    exists 0%nat. split; [lia |]. split; [| split; [done | split; [| done]]].
    - rewrite Hrun. cbn [attempt seq fmap list_fmap]. by rewrite Hfirst.
    - intros _. split; [| intros j Hj; lia].
      unfold stops. cbn [attempt]. by rewrite Hfirst. }
  destruct (buffer_length b >? T * 1024) eqn:Hsize.
  2: { (* the initial encode fits *)
    exists 0%nat. split; [lia |]. split; [| split; [done | split; [| done]]].
    - rewrite Hrun. cbn [attempt seq fmap list_fmap]. by rewrite Hfirst.
    - intros _. split; [| intros j Hj; lia].
      unfold stops. cbn [attempt]. rewrite Hfirst. left. lia. }
  destruct (tiff_or_not f) as [Htiff | Hf].
  { (* no case for tiff in the loop *)
    subst f.
    exists 0%nat. split; [lia |]. split; [| split; [done | split; [done | done]]].
    rewrite Hrun. unfold try_catch.
    rewrite fit_loop_no_case;
      [| by apply (loop_case_tiff q0 _ o) | unfold maxAttempts; lia].
    cbn [attempt seq fmap list_fmap]. by rewrite Hfirst. }
  destruct (fit_loop_run P options p0 f q0 T
              (loop_case_of_initial _ _ _ _ Hcase Hf) Htarget 5 0%nat b
              (add_events w [EvConvert input options; EvToBuffer p0]) eq_refl Hfirst)
    as (n & Hn & Hloop & Hstop & Hmin).
  exists n. split; [lia |]. split; [| split; [done | split; [| done]]].
  - rewrite Hrun. unfold try_catch.
    change (Z.to_nat maxAttempts) with 5%nat.
    cbn [attempt] in Hloop. change (Z.of_nat 0) with 0 in Hloop.
    replace (q0 - 15 * 0) with q0 in Hloop by lia.
    rewrite Hloop, conversion_error_settle, add_events_app, Nat.sub_0_r. reflexivity.
  - intros _. split; [done |]. intros j Hj. apply Hmin. lia.
Qed.

(** A codec with 40 bytes per quality point and a target of 1 KB: the encodes
    run at 80, 65, 50, 35 and 20, and the last one fits. *)
Lemma size_fitting_stage_witness :
  let options := Fixture.options "jpeg" (JS.Int 80) JS.Undefined JS.Undefined true (JS.Int 1) in
  let o := {| fo_quality := 80; fo_progressive := Some true |} in
  let p0 := set_format JPEG o (resize_stage [Byte.x01] options) in
  exists n, (n <= 5)%nat /\
    convertImage Fixture.linear [Byte.x01] options initial_world
    = (conversion_error (sharp_toBuffer Fixture.linear (attempt p0 JPEG 80 n)),
       add_events initial_world
         (EvConvert [Byte.x01] options
          :: (EvToBuffer <$> (attempt p0 JPEG 80 <$> seq 0 (S n))))) /\
    (JPEG = TIFF -> n = 0%nat) /\
    (JPEG <> TIFF ->
     stops Fixture.linear p0 JPEG 80 1 n /\
     forall j, (j < n)%nat -> ~ stops Fixture.linear p0 JPEG 80 1 j) /\
    (forall k, p_input (attempt p0 JPEG 80 k) = [Byte.x01] /\
               p_resize (attempt p0 JPEG 80 k) = p_resize (resize_stage [Byte.x01] options) /\
               out_quality <$> p_output (attempt p0 JPEG 80 k) = Some (80 - 15 * Z.of_nat k)).
Proof.
  intros options o p0.
  apply (size_fitting_stage Fixture.linear [Byte.x01] options JPEG o 1 initial_world).
  - reflexivity.
  - reflexivity.
  - lia.
Defined.

(** The same run, read off: four re-encodes, the buffer of the one at 20. *)
Example size_fitting_stage_linear :
  let options := Fixture.options "jpeg" (JS.Int 80) JS.Undefined JS.Undefined true (JS.Int 1) in
  let run := convertImage Fixture.linear [Byte.x01] options initial_world in
  run.1 = Returned (Fixture.bytes 800) /\
  encode_qualities (trace run.2) = [80; 65; 50; 35; 20].
Proof. vm_compute. split; reflexivity. Qed.

(** C1 (as stated) fails, in three ways.
    - With the default quality and a target that no encode meets, the
      re-encodes run at 65, 50, 35, 20 and 5: after the encode at 20 the
      quality would drop to 5, which is 10 or less, and the loop still runs
      that fifth re-encode and returns its buffer.
    - With a quality of 75 and a codec that refuses a quality below 1, the
      fifth re-encode is asked at quality 0 and refused: the loop exhausts
      without meeting the target and the conversion raises an error.
    - With [tiff], a quality of 80 and an initial encode above the target, no
      re-encode is made at all. *)
Lemma size_fitting_encodes_below_floor :
  let options :=
    Fixture.options "jpeg" JS.Undefined JS.Undefined JS.Undefined true (JS.Int 1) in
  let run := convertImage Fixture.stubborn [Byte.x01] options initial_world in
  let options75 :=
    Fixture.options "jpeg" (JS.Int 75) JS.Undefined JS.Undefined true (JS.Int 1) in
  let run75 := convertImage Fixture.strict [Byte.x01] options75 initial_world in
  let tiff :=
    Fixture.options "tiff" (JS.Int 80) JS.Undefined JS.Undefined true (JS.Int 1) in
  let run_tiff := convertImage Fixture.stubborn [Byte.x01] tiff initial_world in
  (run.1 = Returned (Fixture.bytes 2000) /\
   encode_qualities (trace run.2) = [80; 65; 50; 35; 20; 5] /\
   20 - 15 <= 10) /\
  (run75.1
   = Thrown ("Image conversion failed: "
             +:+ "Expected integer between 1 and 100 for quality but received 0 of type number") /\
   encode_qualities (trace run75.2) = [75; 60; 45; 30; 15; 0]) /\
  (run_tiff.1 = Returned (Fixture.bytes 2000) /\
   exceeds (Fixture.bytes 2000) (targetSizeKB tiff) = true /\
   encode_qualities (trace run_tiff.2) = [80]).
Proof. vm_compute. repeat split; discriminate. Qed.

(** C9. When the output format is [tiff], whatever the target size and the
    size of the initial encode: the codec is called once, for the initial
    [tiff] encode at the requested or default quality, and the conversion
    returns the buffer of that encode (or fails with its error). *)
Theorem tiff_is_never_reencoded (P : Platform) (input : Buffer)
    (options : ConvertOptions) (w : World) :
  JS.toLowerCase (outputFormat options) = "tiff" ->
  let p0 :=
    set_format TIFF {| fo_quality := JS.or_default (quality options) 80;
                       fo_progressive := None |}
               (resize_stage input options) in
  convertImage P input options w
  = (match sharp_toBuffer P p0 with
     | inr b => Returned b
     | inl message => Thrown ("Image conversion failed: " +:+ message)
     end,
     add_events w [EvConvert input options; EvToBuffer p0]).
Proof.
  intros Hfmt p0. rewrite convertImage_stages. cbv zeta. rewrite Hfmt.
  change (initial_case ?q "tiff")
    with (Some (TIFF, {| fo_quality := q; fo_progressive := None |})).
  cbv iota beta. fold p0.
  destruct (sharp_toBuffer P p0) as [message | b]; [reflexivity |].
  destruct (_ && _); [| reflexivity].
  unfold try_catch. rewrite fit_loop_no_case; [reflexivity | | unfold maxAttempts; lia].
  intros q. rewrite Hfmt. by apply (loop_case_tiff 0 "tiff" {| fo_quality := 0; fo_progressive := None |}).
Qed.

(** A [tiff] of 2000 bytes against a target of 1 KB. *)
Lemma tiff_is_never_reencoded_witness :
  let options :=
    Fixture.options "tiff" (JS.Int 90) JS.Undefined JS.Undefined true (JS.Int 1) in
  let p0 :=
    set_format TIFF {| fo_quality := 90; fo_progressive := None |}
               (resize_stage [Byte.x01] options) in
  exceeds (Fixture.bytes 2000) (targetSizeKB options) = true /\
  convertImage Fixture.stubborn [Byte.x01] options initial_world
  = (Returned (Fixture.bytes 2000),
     add_events initial_world [EvConvert [Byte.x01] options; EvToBuffer p0]).
Proof.
  intros options p0. split; [reflexivity |].
  apply (tiff_is_never_reencoded Fixture.stubborn [Byte.x01] options initial_world).
  reflexivity.
Defined.

(** The loop reads the options only through the lower-case format and the
    target, and adds its encodes to the trace whatever the trace was. *)
Lemma fit_loop_ext P options options' fuel :
  JS.toLowerCase (outputFormat options') = JS.toLowerCase (outputFormat options) ->
  targetSizeKB options' = targetSizeKB options ->
  forall p b q a w,
    fit_loop P fuel options' p b q a w = fit_loop P fuel options p b q a w.
Proof.
  intros Hfmt Htarget. induction fuel as [|fuel IH]; intros p b q a w; simpl;
    rewrite Htarget, ?Hfmt; [reflexivity |].
  destruct (_ && _); [| reflexivity].
  destruct (loop_case _ _) as [[f o] |]; [| apply IH].
  unfold bind. destruct (toBuffer P _ w) as [[b' | |] w1]; [apply IH | done | done].
Qed.

Lemma fit_loop_events P options fuel : forall p b q a,
  exists outcome es, forall w,
    fit_loop P fuel options p b q a w = (outcome, add_events w es).
Proof.
  induction fuel as [|fuel IH]; intros p b q a; simpl.
  - destruct (_ && _); eexists _, []; intros w; by rewrite add_events_nil.
  - destruct (_ && _); [| eexists _, []; intros w; by rewrite add_events_nil].
    destruct (loop_case _ _) as [[f o] |]; [| apply IH].
    destruct (sharp_toBuffer P (set_format f o p)) as [message | b'] eqn:Henc.
    + exists (Thrown message), [EvToBuffer (set_format f o p)]. intros w.
      unfold bind. by rewrite toBuffer_run, Henc.
    + destruct (IH (set_format f o p) b' (q - 15) (a + 1)) as (outcome & es & Hrun).
      exists outcome, (EvToBuffer (set_format f o p) :: es). intros w.
      unfold bind. rewrite toBuffer_run, Henc. simpl.
      by rewrite Hrun, add_events_app.
Qed.

(** C10. The dispatch of [convertImage] reads the output format in lower
    case: two spellings that differ only in case give the same outcome and
    the same codec calls whenever the format is one of the cases of the
    switch. And [jpg] is such a case: an output format that reads [jpg] or
    [jpeg] in any mix of cases goes to the [jpeg] encoder, so that when this
    encode succeeds and the size-fitting stage is not entered the conversion
    returns its buffer instead of failing with an unsupported-format error. *)
Theorem dispatch_ignores_case_and_aliases_jpg (P : Platform) (input : Buffer)
    (options : ConvertOptions) :
  (forall s,
     JS.toLowerCase s = JS.toLowerCase (outputFormat options) ->
     initial_case 80 (JS.toLowerCase s) <> None ->
     exists outcome codec_calls, forall w,
       convertImage P input options w
       = (outcome, add_events w (EvConvert input options :: codec_calls)) /\
       convertImage P input (with_format s options) w
       = (outcome, add_events w (EvConvert input (with_format s options) :: codec_calls))) /\
  (forall b w,
     JS.toLowerCase (outputFormat options) = "jpg" \/
     JS.toLowerCase (outputFormat options) = "jpeg" ->
     let p0 :=
       set_format JPEG {| fo_quality := JS.or_default (quality options) 80;
                          fo_progressive := Some true |}
                  (resize_stage input options) in
     sharp_toBuffer P p0 = inr b ->
     JS.truthy (targetSizeKB options) && exceeds b (targetSizeKB options) = false ->
     convertImage P input options w
     = (Returned b, add_events w [EvConvert input options; EvToBuffer p0])).
Proof.
  split.
  - intros s Hs Hsupported.
    destruct (initial_case (JS.or_default (quality options) 80)
                           (JS.toLowerCase (outputFormat options)))
      as [[f o] |] eqn:Hcase;
      [| exfalso; apply Hsupported; rewrite Hs; by apply (initial_case_None _ _ _ Hcase)].
    assert (forall w,
      convertImage P input (with_format s options) w
      = match sharp_toBuffer P (set_format f o (resize_stage input options)) with
        | inl message =>
            (Thrown ("Image conversion failed: " +:+ message),
             add_events w [EvConvert input (with_format s options);
                           EvToBuffer (set_format f o (resize_stage input options))])
        | inr b =>
            if JS.truthy (targetSizeKB options) && exceeds b (targetSizeKB options)
            then try_catch
                   (fit_loop P (Z.to_nat maxAttempts) options
                      (set_format f o (resize_stage input options)) b
                      (JS.or_default (quality options) 80) 0)
                   conversion_failed
                   (add_events w [EvConvert input (with_format s options);
                                  EvToBuffer (set_format f o (resize_stage input options))])
            else (Returned b,
                  add_events w [EvConvert input (with_format s options);
                                EvToBuffer (set_format f o (resize_stage input options))])
        end) as Hother.
    { intros w. rewrite convertImage_stages. cbv zeta.
      cbn [with_format outputFormat quality targetSizeKB]. rewrite Hs, Hcase.
      change (resize_stage input (with_format s options)) with (resize_stage input options).
      destruct (sharp_toBuffer P _) as [message | b]; [reflexivity |].
      destruct (_ && _); [| reflexivity].
      unfold try_catch. by rewrite (fit_loop_ext P options (with_format s options)). }
    destruct (sharp_toBuffer P (set_format f o (resize_stage input options)))
      as [message | b] eqn:Henc.
    + eexists _, [_]. intros w. rewrite Hother, convertImage_stages. cbv zeta.
      rewrite Hcase, Henc. split; reflexivity.
    + destruct (JS.truthy (targetSizeKB options) && exceeds b (targetSizeKB options))
        eqn:Hfit.
      * destruct (fit_loop_events P options (Z.to_nat maxAttempts)
                    (set_format f o (resize_stage input options)) b
                    (JS.or_default (quality options) 80) 0)
          as (outcome & es & Hrun).
        exists (match outcome with
                | Thrown message => Thrown ("Image conversion failed: " +:+ message)
                | r => r
                end),
               (EvToBuffer (set_format f o (resize_stage input options)) :: es).
        intros w. rewrite Hother, convertImage_stages. cbv zeta.
        rewrite Hcase, Henc, Hfit. unfold try_catch. rewrite !Hrun, !add_events_app.
        destruct outcome; split; reflexivity.
      * eexists _, [_]. intros w. rewrite Hother, convertImage_stages. cbv zeta.
        rewrite Hcase, Henc, Hfit. split; reflexivity.
  - intros b w Hfmt p0 Henc Hfits. rewrite convertImage_stages. cbv zeta.
    assert (initial_case (JS.or_default (quality options) 80)
                         (JS.toLowerCase (outputFormat options))
            = Some (JPEG, {| fo_quality := JS.or_default (quality options) 80;
                             fo_progressive := Some true |})) as ->
      by (destruct Hfmt as [-> | ->]; reflexivity).
    fold p0. rewrite Henc, Hfits. reflexivity.
Qed.

(** [JPG] and [jpg], which are not among the five documented values, and
    [JPG] against [jpg]. *)
Lemma dispatch_ignores_case_and_aliases_jpg_witness :
  let upper := Fixture.options "JPG" JS.Undefined JS.Undefined JS.Undefined true JS.Undefined in
  let lower := Fixture.options "jpg" JS.Undefined JS.Undefined JS.Undefined true JS.Undefined in
  let jpeg := {| fo_quality := 80; fo_progressive := Some true |} in
  (exists outcome codec_calls, forall w,
     convertImage Fixture.stubborn [Byte.x01] lower w
     = (outcome, add_events w (EvConvert [Byte.x01] lower :: codec_calls)) /\
     convertImage Fixture.stubborn [Byte.x01] (with_format "JPG" lower) w
     = (outcome, add_events w (EvConvert [Byte.x01] (with_format "JPG" lower) :: codec_calls))) /\
  convertImage Fixture.stubborn [Byte.x01] upper initial_world
  = (Returned (Fixture.bytes 2000),
     add_events initial_world
       [EvConvert [Byte.x01] upper; EvToBuffer (set_format JPEG jpeg (sharp [Byte.x01]))]) /\
  convertImage Fixture.stubborn [Byte.x01] lower initial_world
  = (Returned (Fixture.bytes 2000),
     add_events initial_world
       [EvConvert [Byte.x01] lower; EvToBuffer (set_format JPEG jpeg (sharp [Byte.x01]))]).
Proof.
  intros upper lower jpeg. split; [| split].
  - apply (proj1 (dispatch_ignores_case_and_aliases_jpg Fixture.stubborn [Byte.x01] lower)
             "JPG"); [reflexivity | discriminate].
  - apply (proj2 (dispatch_ignores_case_and_aliases_jpg Fixture.stubborn [Byte.x01] upper)
             (Fixture.bytes 2000) initial_world);
      [left; reflexivity | reflexivity | reflexivity].
  - apply (proj2 (dispatch_ignores_case_and_aliases_jpg Fixture.stubborn [Byte.x01] lower)
             (Fixture.bytes 2000) initial_world);
      [left; reflexivity | reflexivity | reflexivity].
Defined.

(** ** The resize stage *)

Lemma fill_geometry_never_enlarges : never_enlarges fill_geometry.
Proof.
  intros ro sw sh Hwe. unfold fill_geometry. rewrite Hwe.
  destruct (ro_fit ro), (ro_width ro), (ro_height ro); simpl; try lia.
  destruct (_ && _); simpl; [| lia].
  unfold fill_axis. simpl.
  split; match goal with |- context [?a <? ?b] => destruct (Z.ltb_spec a b) end; lia.
Qed.

Lemma fill_geometry_is_exact : fill_is_exact fill_geometry.
Proof.
  intros ro w h sw sh Hfit Hw Hh Hws Hhs. unfold fill_geometry.
  rewrite Hfit, Hw, Hh.
  replace (0 <? w) with true by (symmetry; apply Z.ltb_lt; lia).
  replace (0 <? h) with true by (symmetry; apply Z.ltb_lt; lia).
  unfold fill_axis. simpl.
  replace (sw <? w) with false by (symmetry; apply Z.ltb_ge; lia).
  replace (sh <? h) with false by (symmetry; apply Z.ltb_ge; lia).
  by rewrite !andb_false_r.
Qed.

(** Every resize the engine asks for has [withoutEnlargement] set, so no
    conversion enlarges an image, whatever the fit. *)
Lemma resize_stage_never_enlarges g input options sw sh :
  never_enlarges g ->
  (output_dimensions g (sw, sh) (resize_stage input options)).1 <= sw /\
  (output_dimensions g (sw, sh) (resize_stage input options)).2 <= sh.
Proof.
  intros Hg. unfold output_dimensions, resize_stage.
  destruct (_ || _); simpl; [by apply Hg | lia].
Qed.

(** C3 (as amended). With [maintainAspectRatio] false and both dimensions
    given, the resize stage asks for a [fill] to exactly these dimensions, and
    the output has exactly the requested width and height when neither exceeds
    the source; the request is made with [withoutEnlargement], so it is not a
    request to enlarge. *)
Theorem fill_forces_dimensions_within_source (g : Geometry) (input : Buffer)
    (options : ConvertOptions) (w h sw sh : Z) :
  fill_is_exact g ->
  maintainAspectRatio options = false ->
  opt_width options = JS.Int w -> opt_height options = JS.Int h ->
  0 < w <= sw -> 0 < h <= sh ->
  p_resize (resize_stage input options)
  = Some {| ro_width := JS.Int w; ro_height := JS.Int h;
            ro_fit := FitFill; ro_withoutEnlargement := true |} /\
  output_dimensions g (sw, sh) (resize_stage input options) = (w, h).
Proof.
  intros Hg Hkeep Hw Hh Hws Hhs.
  assert (p_resize (resize_stage input options)
          = Some {| ro_width := JS.Int w; ro_height := JS.Int h;
                    ro_fit := FitFill; ro_withoutEnlargement := true |}) as Hro.
  { unfold resize_stage. rewrite Hw, Hh, Hkeep. simpl.
    replace (w =? 0) with false by (symmetry; apply Z.eqb_neq; lia).
    reflexivity. }
  split; [exact Hro |].
  unfold output_dimensions. rewrite Hro. by apply Hg.
Qed.

(** A 640 x 480 source squeezed to 300 x 300. *)
Lemma fill_forces_dimensions_within_source_witness :
  let options :=
    Fixture.options "png" JS.Undefined (JS.Int 300) (JS.Int 300) false JS.Undefined in
  p_resize (resize_stage [Byte.x01] options)
  = Some {| ro_width := JS.Int 300; ro_height := JS.Int 300;
            ro_fit := FitFill; ro_withoutEnlargement := true |} /\
  output_dimensions fill_geometry (640, 480) (resize_stage [Byte.x01] options) = (300, 300).
Proof.
  intros options.
  apply (fill_forces_dimensions_within_source fill_geometry [Byte.x01] options 300 300 640 480);
    [exact fill_geometry_is_exact | reflexivity | reflexivity | reflexivity | lia | lia].
Defined.

(** C3 (as stated) fails. A 100 x 100 source with 200 x 200 requested and
    [maintainAspectRatio] false: the resize is a [fill] with
    [withoutEnlargement], under which no geometry gives more than 100 on an
    axis, and the output stays 100 x 100. *)
Lemma fill_request_above_source_is_not_met :
  let options :=
    Fixture.options "png" JS.Undefined (JS.Int 200) (JS.Int 200) false JS.Undefined in
  p_resize (resize_stage [Byte.x01] options)
  = Some {| ro_width := JS.Int 200; ro_height := JS.Int 200;
            ro_fit := FitFill; ro_withoutEnlargement := true |} /\
  (forall g, never_enlarges g ->
     output_dimensions g (100, 100) (resize_stage [Byte.x01] options) <> (200, 200)) /\
  never_enlarges fill_geometry /\ fill_is_exact fill_geometry /\
  output_dimensions fill_geometry (100, 100) (resize_stage [Byte.x01] options) = (100, 100).
Proof.
  intros options. split; [reflexivity |]. split; [| split; [| split]].
  - intros g Hg Heq.
    pose proof (resize_stage_never_enlarges g [Byte.x01] options 100 100 Hg) as [H _].
    rewrite Heq in H. simpl in H. lia.
  - exact fill_geometry_never_enlarges.
  - exact fill_geometry_is_exact.
  - reflexivity.
Qed.

(** ** Presets *)

Lemma apply_preset_none o : apply_preset None o = o.
Proof. reflexivity. Qed.

(** A name of the table overwrites [width] and [height] and nothing else. *)
Lemma apply_preset_known name w h o :
  PRESET_SIZES !! name = Some (w, h) ->
  apply_preset (Some name) o
  = {| outputFormat := outputFormat o; quality := quality o;
       opt_width := JS.Int w; opt_height := JS.Int h;
       maintainAspectRatio := maintainAspectRatio o;
       targetSizeKB := targetSizeKB o |}.
Proof.
  intros Hname. unfold apply_preset.
  destruct name as [|c name]; [by vm_compute in Hname |].
  simpl. unfold PRESET_SIZES_get. rewrite Hname. reflexivity.
Qed.

Lemma apply_preset_instagram o :
  opt_width (apply_preset (Some "instagram") o) = JS.Int 1080 /\
  opt_height (apply_preset (Some "instagram") o) = JS.Int 1080.
Proof. by rewrite (apply_preset_known "instagram" 1080 1080). Qed.

(** A name that is neither in the table nor a member of [Object.prototype]
    changes nothing. *)
Lemma apply_preset_missing name o :
  PRESET_SIZES !! name = None -> name ∉ Object_prototype ->
  apply_preset (Some name) o = o.
Proof.
  intros Hname Hproto. unfold apply_preset.
  change (default "" (Some name)) with name.
  unfold PRESET_SIZES_get. rewrite Hname.
  rewrite bool_decide_eq_false_2 by done. simpl. by rewrite andb_false_r.
Qed.

(** A member of [Object.prototype] is not a preset and still erases [width]
    and [height]. *)
Lemma apply_preset_inherited name o :
  name ∈ Object_prototype ->
  PRESET_SIZES !! name = None /\
  apply_preset (Some name) o
  = {| outputFormat := outputFormat o; quality := quality o;
       opt_width := JS.Undefined; opt_height := JS.Undefined;
       maintainAspectRatio := maintainAspectRatio o;
       targetSizeKB := targetSizeKB o |}.
Proof.
  unfold Object_prototype. intros Hname.
  repeat (apply elem_of_cons in Hname as [-> | Hname]; [by vm_compute |]).
  by apply elem_of_nil in Hname.
Qed.

(** C5, at the failing input. [constructor] is not a preset of the table, yet
    [PRESET_SIZES["constructor"]] is the inherited [Object] function: the
    preset block runs and assigns [undefined] to the [width] and the [height]
    that were supplied, so the engine is called without dimensions. *)
Theorem preset_constructor_erases_dimensions :
  let supplied := Fixture.options "png" (JS.Int 80) (JS.Int 500) (JS.Int 300) true JS.Undefined in
  let erased := Fixture.options "png" (JS.Int 80) JS.Undefined JS.Undefined true JS.Undefined in
  let req :=
    Fixture.request [Fixture.upload "a.png" [Byte.x01]]
      (Fixture.form (Some "png") (Some "80") (Some "500") (Some "300") None None
                    (Some "constructor")) in
  PRESET_SIZES !! "constructor" = None /\
  apply_preset (Some "constructor") supplied = erased /\
  trace (convert_image Fixture.stubborn req initial_world).2
  = [ EvMetadata [Byte.x01];
      EvConvert [Byte.x01] erased;
      EvToBuffer (set_format PNG {| fo_quality := 80; fo_progressive := Some true |}
                             (sharp [Byte.x01]));
      EvMetadata (Fixture.bytes 2000) ].
Proof. vm_compute. repeat split. Qed.

(** ** Strings *)

Lemma lower_ascii_idemp c : JS.lower_ascii (JS.lower_ascii c) = JS.lower_ascii c.
Proof. destruct c as [[] [] [] [] [] [] [] []]; reflexivity. Qed.

Lemma toLowerCase_idemp s : JS.toLowerCase (JS.toLowerCase s) = JS.toLowerCase s.
Proof. induction s as [|c s IH]; simpl; [done |]. by rewrite lower_ascii_idemp, IH. Qed.

(** ** The handlers *)

Lemma getImageInfo_run P buffer w :
  getImageInfo P buffer w
  = (match sharp_metadata P buffer with
     | inr md => Returned (info_of md buffer)
     | inl message => Thrown ("Failed to get image info: " +:+ message)
     end,
     add_events w [EvMetadata buffer]).
Proof.
  unfold getImageInfo, try_catch, bind. rewrite metadata_run.
  by destruct (sharp_metadata P buffer).
Qed.

Lemma analyzeImageColors_run P buffer w :
  exists colors,
    analyzeImageColors P buffer w = (Returned colors, add_events w [EvStats buffer]).
Proof.
  unfold analyzeImageColors, try_catch, bind, stats, bind. rewrite emit_run.
  destruct (sharp_stats P buffer); simpl; eauto.
Qed.

Lemma apply_preset_outputFormat preset o :
  outputFormat (apply_preset preset o) = outputFormat o.
Proof. unfold apply_preset. by destruct (_ && _). Qed.

Lemma apply_preset_quality preset o : quality (apply_preset preset o) = quality o.
Proof. unfold apply_preset. by destruct (_ && _). Qed.

(** ** Analysis *)

(** The analysis route answers with status 200 as soon as the metadata can be
    read, whatever the metadata says. *)
Lemma analyze_image_run P req file md w :
  req_file req = Some file ->
  sharp_metadata P (file_buffer file) = inr md ->
  exists colors,
    analyze_image P req w
    = (Returned (json (AnalysisBody
         {| colors := colors;
            hasTransparency := md_hasAlpha md || false;
            an_aspectRatio := JS.toFixed2 (JS.div (md_width md) (md_height md));
            recommendedFormat :=
              recommendFormat (info_of md (file_buffer file)) (md_hasAlpha md || false);
            estimatedQuality :=
              estimateQuality (buffer_length (file_buffer file)) (md_width md) (md_height md);
            an_width := md_width md;
            an_height := md_height md;
            an_format := md_format md;
            an_size := buffer_length (file_buffer file) |})),
       add_events w [EvMetadata (file_buffer file); EvStats (file_buffer file)]).
Proof.
  intros Hfile Hmd. unfold analyze_image, try_catch. rewrite Hfile.
  unfold bind at 1. rewrite getImageInfo_run, Hmd. unfold bind at 1.
  destruct (analyzeImageColors_run P (file_buffer file)
              (add_events w [EvMetadata (file_buffer file)])) as [colors ->].
  exists colors. rewrite add_events_app. reflexivity.
Qed.

Lemma div_by_zero_not_finite a : JS.is_finite (JS.toFixed2 (JS.div a 0)) = false.
Proof. unfold JS.div. simpl. by destruct (a =? 0), (0 <? a). Qed.

(** C7 (as amended). No dimension is checked before the aspect-ratio
    division: for every input whose metadata reports zero for the width or
    the height, analyze returns an analysis with status 200 and these
    dimensions instead of failing, and with a zero height the division by
    zero is performed and gives a non-finite aspect ratio. *)
Theorem analyze_accepts_zero_dimensions (P : Platform) (req : Request)
    (file : Upload) (md : Metadata) (w : World) :
  req_file req = Some file ->
  sharp_metadata P (file_buffer file) = inr md ->
  md_width md = 0 \/ md_height md = 0 ->
  exists result w',
    analyze_image P req w = (Returned (json (AnalysisBody result)), w') /\
    an_width result = md_width md /\ an_height result = md_height md /\
    (md_height md = 0 -> JS.is_finite (an_aspectRatio result) = false).
Proof.
  intros Hfile Hmd _.
  destruct (analyze_image_run P req file md w Hfile Hmd) as [colors ->].
  eexists _, _. split; [reflexivity |]. simpl. repeat split.
  intros ->. apply div_by_zero_not_finite.
Qed.

(** A decoder that reports 640 x 0. *)
Lemma analyze_accepts_zero_dimensions_witness :
  let P := Fixture.codec (Fixture.opaque_png 640 0) (fun _ => 2000) in
  let req :=
    Fixture.request [Fixture.upload "a.png" [Byte.x01]]
      (Fixture.form None None None None None None None) in
  exists result w',
    analyze_image P req initial_world = (Returned (json (AnalysisBody result)), w') /\
    an_width result = 640 /\ an_height result = 0 /\
    (0 = 0 -> JS.is_finite (an_aspectRatio result) = false).
Proof.
  intros P req.
  apply (analyze_accepts_zero_dimensions P req (Fixture.upload "a.png" [Byte.x01])
           (Fixture.opaque_png 640 0) initial_world);
    [reflexivity | reflexivity | right; reflexivity].
Defined.

(** C7 (as stated) fails. The decoder reports 640 x 0 for a one-byte file:
    analyze does not fail; it divides 640 by 0 and answers with status 200,
    an infinite aspect ratio and an estimated quality of 95. *)
Lemma zero_height_is_analyzed :
  let P := Fixture.codec (Fixture.opaque_png 640 0) (fun _ => 2000) in
  let req :=
    Fixture.request [Fixture.upload "a.png" [Byte.x01]]
      (Fixture.form None None None None None None None) in
  (analyze_image P req initial_world).1
  = Returned {| status := 200;
                body := AnalysisBody
                  {| colors := ["rgb(200, 20, 30)"; "rgb(170, 20, 30)"; "rgb(200, 0, 30)"];
                     hasTransparency := false;
                     an_aspectRatio := JS.PosInf;
                     recommendedFormat := "webp";
                     estimatedQuality := 95;
                     an_width := 640;
                     an_height := 0;
                     an_format := "png";
                     an_size := 1 |} |}.
Proof. vm_compute. reflexivity. Qed.

(** C8. For every image that decodes, the [recommendedFormat] of the analysis
    is [png] when the metadata reports an alpha channel; else [gif] when the
    source format is [gif]; else [jpeg] when width times height exceeds
    1,000,000; else [webp]. *)
Theorem recommendedFormat_decision_table (P : Platform) (req : Request)
    (file : Upload) (md : Metadata) (w : World) :
  req_file req = Some file ->
  sharp_metadata P (file_buffer file) = inr md ->
  exists result w',
    analyze_image P req w = (Returned (json (AnalysisBody result)), w') /\
    (md_hasAlpha md = true -> recommendedFormat result = "png") /\
    (md_hasAlpha md = false -> md_format md = "gif" ->
     recommendedFormat result = "gif") /\
    (md_hasAlpha md = false -> md_format md <> "gif" ->
     1000000 < md_width md * md_height md -> recommendedFormat result = "jpeg") /\
    (md_hasAlpha md = false -> md_format md <> "gif" ->
     md_width md * md_height md <= 1000000 -> recommendedFormat result = "webp").
Proof.
  intros Hfile Hmd.
  destruct (analyze_image_run P req file md w Hfile Hmd) as [colors ->].
  eexists _, _. split; [reflexivity |]. cbn [recommendedFormat].
  unfold recommendFormat, info_of. cbn [format width height].
  split; [| split; [| split]].
  - by intros ->.
  - intros -> ->. reflexivity.
  - intros -> Hgif Hlarge. cbn [orb].
    destruct (String.eqb_spec (md_format md) "gif") as [? | _]; [done |].
    by replace (md_width md * md_height md >? 1000000) with true
      by (symmetry; apply Z.gtb_lt; lia).
  - intros -> Hgif Hsmall. cbn [orb].
    destruct (String.eqb_spec (md_format md) "gif") as [? | _]; [done |].
    destruct (Z.gtb_spec (md_width md * md_height md) 1000000); [lia | done].
Qed.

(** An opaque 2000 x 1000 [png]: two million pixels, so [jpeg]. *)
Lemma recommendedFormat_decision_table_witness :
  let P := Fixture.codec (Fixture.opaque_png 2000 1000) (fun _ => 2000) in
  let req :=
    Fixture.request [Fixture.upload "a.png" [Byte.x01]]
      (Fixture.form None None None None None None None) in
  exists result w',
    analyze_image P req initial_world = (Returned (json (AnalysisBody result)), w') /\
    (false = true -> recommendedFormat result = "png") /\
    (false = false -> "png" = "gif" -> recommendedFormat result = "gif") /\
    (false = false -> "png" <> "gif" ->
     1000000 < 2000 * 1000 -> recommendedFormat result = "jpeg") /\
    (false = false -> "png" <> "gif" ->
     2000 * 1000 <= 1000000 -> recommendedFormat result = "webp").
Proof.
  intros P req.
  apply (recommendedFormat_decision_table P req (Fixture.upload "a.png" [Byte.x01])
           (Fixture.opaque_png 2000 1000) initial_world);
    reflexivity.
Defined.

Example recommendFormat_rows :
  recommendFormat (info_of {| md_width := 2000; md_height := 1000;
                              md_format := "gif"; md_hasAlpha := true |} []) true = "png" /\
  recommendFormat (info_of {| md_width := 2000; md_height := 1000;
                              md_format := "gif"; md_hasAlpha := false |} []) false = "gif" /\
  recommendFormat (info_of (Fixture.opaque_png 2000 1000) []) false = "jpeg" /\
  recommendFormat (info_of (Fixture.opaque_png 1000 1000) []) false = "webp".
Proof. repeat split; reflexivity. Qed.

(** ** Conversion results *)

(** What [convert_and_store] copies into a result it returns. *)
Lemma convert_and_store_result P req file info fmt o w result w' :
  convert_and_store P req file info fmt o w = (Returned result, w') ->
  finalQuality result = quality o /\
  orig_name (originalFile result) = originalname file.
Proof.
  unfold convert_and_store, bind.
  destruct (convertImage P (file_buffer file) o w) as [[buffer | |] w1]; try discriminate.
  rewrite getImageInfo_run.
  destruct (sharp_metadata P buffer); try discriminate.
  unfold fresh_uuid, saveToTemp. cbn [uuids].
  destruct (fs_writeFile P _ buffer); try discriminate.
  intros [= <- _]. split; reflexivity.
Qed.

(** On the single route, [finalQuality] is the [quality] field of the request
    as parsed (80 when absent), whatever the encodes were. *)
Lemma convert_image_finalQuality P req w result w' :
  convert_image P req w = (Returned (json (ConversionBody result)), w') ->
  finalQuality result = parse_field (body_quality (req_body req)) (JS.Int 80).
Proof.
  unfold convert_image, try_catch.
  destruct (req_file req) as [file |]; [| discriminate]. cbv zeta.
  destruct (negb _); [discriminate |].
  unfold bind at 1. rewrite getImageInfo_run.
  destruct (sharp_metadata P (file_buffer file)) as [| md]; [discriminate |].
  unfold bind at 1.
  destruct (convert_and_store _ _ _ _ _ _ _) as [[r | |] w1] eqn:Hstore; try discriminate.
  intros [= <- _]. apply convert_and_store_result in Hstore as [-> _].
  apply apply_preset_quality.
Qed.

(** C2, at the failing input. A [jpeg] at quality 80 with a target of 3 KB,
    on a codec that gives 40 bytes per quality point: the initial encode at 80
    (3200 bytes) is too large, the re-encode at 65 (2600 bytes) fits and is
    the buffer returned and stored, and [finalQuality] is 80. *)
Theorem finalQuality_ignores_the_fitting_loop :
  let req :=
    Fixture.request [Fixture.upload "a.png" [Byte.x01]]
      (Fixture.form (Some "jpeg") (Some "80") None None None (Some "3") None) in
  let run := convert_image Fixture.linear req initial_world in
  encode_qualities (trace run.2) = [80; 65] /\
  exists result,
    run.1 = Returned (json (ConversionBody result)) /\
    conv_size (convertedFile result) = 40 * 65 /\
    finalQuality result = JS.Int 80.
Proof.
  vm_compute. split; [reflexivity |]. eexists. repeat split.
Qed.

(** ** Totality *)

Lemma total_ret {A} (a : A) : total (ret a).
Proof. by intros w. Qed.

Lemma total_throw {A} message : total (@throw A message).
Proof. by intros w. Qed.

Lemma total_bind {A B} (c : M A) (k : A -> M B) :
  total c -> (forall a, total (k a)) -> total (bind c k).
Proof.
  intros Hc Hk w. unfold bind. specialize (Hc w).
  destruct (c w) as [[a | message |] w1]; simpl in *; [apply Hk | done | done].
Qed.

Lemma total_try_catch {A} (c : M A) handler :
  total c -> (forall message, total (handler message)) -> total (try_catch c handler).
Proof.
  intros Hc Hh w. unfold try_catch. specialize (Hc w).
  destruct (c w) as [[a | message |] w1]; simpl in *; [done | apply Hh | done].
Qed.

Lemma total_getImageInfo P buffer : total (getImageInfo P buffer).
Proof. intros w. rewrite getImageInfo_run. by destruct (sharp_metadata P buffer). Qed.

Lemma total_convertImage P input options : total (convertImage P input options).
Proof. intros w. apply convertImage_total. Qed.

Lemma total_fresh_uuid P : total (fresh_uuid P).
Proof. by intros w. Qed.

Lemma total_saveToTemp P buffer filename : total (saveToTemp P buffer filename).
Proof. intros w. unfold saveToTemp. by destruct (fs_writeFile P filename buffer). Qed.

Create HintDb total discriminated.
#[local] Hint Resolve total_ret total_throw total_getImageInfo total_convertImage
  total_fresh_uuid total_saveToTemp : total.
#[local] Hint Extern 2 (total (bind _ _)) => apply total_bind; [| intro] : total.
#[local] Hint Extern 2 (total (try_catch _ _)) => apply total_try_catch; [| intro] : total.

Lemma total_process_file P req settings file : total (process_file P req settings file).
Proof. unfold process_file, convert_and_store. auto 12 with total. Qed.

(** ** The batch *)

Lemma error_lines_length rs : length (error_lines rs) = failures rs.
Proof.
  unfold failures. induction rs as [|[] rs IH]; simpl; [done | done |].
  by rewrite IH.
Qed.

Lemma successes_failures rs : (successes rs + failures rs = length rs)%nat.
Proof.
  unfold successes, failures. induction rs as [|[] rs IH]; simpl; lia.
Qed.

Lemma batch_outcomes_names P req settings w files rs w' :
  batch_outcomes P req settings w files rs w' ->
  item_name <$> rs = originalname <$> files.
Proof.
  induction 1 as [| w file files r w1 rs w2 Hitem _ IH]; [done |].
  simpl. f_equal; [| exact IH].
  destruct Hitem as [result w' Hrun | message w' Hrun]; [| done].
  unfold process_file, bind in Hrun. rewrite getImageInfo_run in Hrun.
  destruct (sharp_metadata P (file_buffer file)); [discriminate |].
  apply convert_and_store_result in Hrun as [_ Hname]. exact Hname.
Qed.

Lemma batch_loop_run P req settings files : forall acc w,
  exists rs w',
    batch_outcomes P req settings w files rs w' /\
    batch_loop P req settings files acc w
    = (Returned {| acc_results := acc_results acc ++ rs;
                   acc_errors := acc_errors acc ++ error_lines rs;
                   acc_totalProcessed := acc_totalProcessed acc + Z.of_nat (successes rs) |},
       w').
Proof.
  induction files as [|file files IH]; intros acc w.
  - exists [], w. split; [constructor |]. simpl.
    rewrite !app_nil_r, Z.add_0_r. by destruct acc.
  - simpl. unfold bind at 1, try_catch, bind at 1.
    pose proof (total_process_file P req settings file w) as Htotal.
    destruct (process_file P req settings file w) as [[result | message |] w1] eqn:Hrun;
      [| | done]; unfold ret; cbv beta iota.
    + destruct (IH {| acc_results := acc_results acc ++ [Success result];
                      acc_errors := acc_errors acc;
                      acc_totalProcessed := acc_totalProcessed acc + 1 |} w1)
        as (rs & w' & Hrs & ->).
      exists (Success result :: rs), w'. split.
      * econstructor; [by constructor | exact Hrs].
      * cbn [acc_results acc_errors acc_totalProcessed].
        rewrite <- app_assoc. unfold successes. simpl. do 3 f_equal. lia.
    + destruct (IH {| acc_results :=
                        acc_results acc ++
                        [Failed (originalname file) (file_size file) (mimetype file) message];
                      acc_errors :=
                        acc_errors acc ++ [originalname file +:+ ": " +:+ message];
                      acc_totalProcessed := acc_totalProcessed acc |} w1)
        as (rs & w' & Hrs & ->).
      exists (Failed (originalname file) (file_size file) (mimetype file) message :: rs), w'.
      split.
      * econstructor; [by constructor | exact Hrs].
      * cbn [acc_results acc_errors acc_totalProcessed].
        rewrite <- !app_assoc. reflexivity.
Qed.

(** C4. A batch of N files always returns a report. Each file is converted on
    its own; the failure of a file is caught, recorded with the file's
    original name and the message of the error, and the next file is
    processed. The results are in the order of the files, [totalErrors] is
    the number M of files that failed and [totalProcessed] is N - M. *)
Theorem batch_isolates_failures (P : Platform) (req : Request) (settings : Settings)
    (w : World) :
  exists report w',
    run_batch P req settings w = (Returned report, w') /\
    batch_outcomes P req settings w (req_files req) (results report) w' /\
    length (results report) = length (req_files req) /\
    item_name <$> results report = originalname <$> req_files req /\
    totalErrors report = Z.of_nat (failures (results report)) /\
    totalProcessed report
    = Z.of_nat (length (req_files req)) - Z.of_nat (failures (results report)) /\
    errors report
    = (if decide (failures (results report) = 0%nat) then None
       else Some (error_lines (results report))).
Proof.
  unfold run_batch, bind.
  destruct (batch_loop_run P req settings (req_files req)
              {| acc_results := []; acc_errors := []; acc_totalProcessed := 0 |} w)
    as (rs & w' & Hrs & ->).
  eexists _, w'. split; [reflexivity |].
  unfold batch_report. cbn [results totalProcessed totalErrors errors
                            acc_results acc_errors acc_totalProcessed app].
  pose proof (batch_outcomes_names _ _ _ _ _ _ _ Hrs) as Hnames.
  assert (length rs = length (req_files req)) as Hlen
    by (rewrite <- (length_fmap item_name), Hnames; apply length_fmap).
  repeat split; try done.
  - by rewrite error_lines_length.
  - pose proof (successes_failures rs). lia.
  - rewrite error_lines_length. destruct (decide _) as [-> | Hne]; [done |].
    by replace (0 <? Z.of_nat (failures rs)) with true
      by (symmetry; apply Z.ltb_lt; lia).
Qed.

(** Three files on a decoder that rejects the second one. *)
Example batch_with_one_corrupt_file :
  let req :=
    Fixture.request
      [ Fixture.upload "a.png" [Byte.x01];
        Fixture.upload "broken.png" [Byte.xff];
        Fixture.upload "c.png" [Byte.x02] ]
      (Fixture.form (Some "webp") None None None None None None) in
  exists report,
    (run_batch Fixture.picky req (form_settings (req_body req)) initial_world).1
    = Returned report /\
    totalProcessed report = 2 /\ totalErrors report = 1 /\
    item_name <$> results report = ["a.png"; "broken.png"; "c.png"] /\
    is_failed <$> results report = [false; true; false] /\
    errors report
    = Some ["broken.png: Failed to get image info: Input buffer contains unsupported image format"].
Proof. vm_compute. eexists. repeat split. Qed.

(** The batch route answers a valid form with status 200 and the report of
    the run. *)
Lemma convert_batch_report P JSON_parse req w :
  req_files req <> [] ->
  body_settings (req_body req) = None ->
  JS.truthy_str (body_outputFormat (req_body req)) = true ->
  exists report w',
    run_batch P req (form_settings (req_body req)) w = (Returned report, w') /\
    convert_batch P JSON_parse req w = (Returned (json (BatchBody report)), w').
Proof.
  intros Hfiles Hsettings Hformat. unfold convert_batch, try_catch, run_batch, bind.
  destruct (req_files req) as [|file files] eqn:Hreq; [done |].
  rewrite Hsettings. cbn [mbind option_bind s_outputFormat form_settings].
  rewrite Hformat. cbn [negb default from_option id].
  destruct (batch_loop_run P req (form_settings (req_body req)) (file :: files)
              {| acc_results := []; acc_errors := []; acc_totalProcessed := 0 |} w)
    as (rs & w' & _ & Hrun).
  rewrite Hrun. eauto.
Qed.

(** * More of the server *)

(** ** The quality estimate *)

(** The comparison of a quotient with an integer, without the division. *)
Lemma gt_div a b n : 0 < b -> JS.gt (JS.div a b) n = (n * b <? a).
Proof.
  intros Hb. unfold JS.div.
  replace (b =? 0) with false by (symmetry; apply Z.eqb_neq; lia).
  cbn [JS.gt].
  assert (0 < inject_Z b)%Q as Hb'
    by (change (inject_Z 0 < inject_Z b)%Q; rewrite <- Zlt_Qlt; exact Hb).
  destruct (Z.ltb_spec (n * b) a) as [Hlt | Hge].
  - assert (inject_Z n < Qred (inject_Z a / inject_Z b))%Q as H.
    { rewrite Qred_correct. apply Qlt_shift_div_l; [exact Hb' |].
      rewrite <- inject_Z_mult, <- Zlt_Qlt. exact Hlt. }
    destruct (Qcompare _ _) eqn:Hcmp; try reflexivity; exfalso;
      apply Qlt_alt in H; unfold Qcompare in *; congruence.
  - assert (Qred (inject_Z a / inject_Z b) <= inject_Z n)%Q as H.
    { rewrite Qred_correct. apply Qle_shift_div_r; [exact Hb' |].
      rewrite <- inject_Z_mult, <- Zle_Qle. exact Hge. }
    destruct (Qcompare _ _) eqn:Hcmp; try reflexivity.
    apply Qlt_alt in Hcmp. exfalso. by apply (Qlt_not_le _ _ Hcmp).
Qed.

Lemma estimateQuality_cases size width height :
  0 < width * height ->
  estimateQuality size width height
  = if 3 * (width * height) <? size then 95
    else if 2 * (width * height) <? size then 85
    else if width * height <? size then 75
    else 65.
Proof.
  intros Hpixels. unfold estimateQuality. cbv zeta.
  rewrite !gt_div by exact Hpixels.
  by replace (1 * (width * height)) with (width * height) by lia.
Qed.

(** X1. For an image with a positive number of pixels the estimate only
    compares the size with one, two and three times the number of pixels:
    more than three bytes per pixel is 95, more than two is 85, more than one
    is 75, and anything else, exactly one byte per pixel included, is 65. *)
Theorem estimateQuality_thresholds (size width height : Z) :
  0 < width * height ->
  estimateQuality size width height
  = if 3 * (width * height) <? size then 95
    else if 2 * (width * height) <? size then 85
    else if width * height <? size then 75
    else 65.
Proof. apply estimateQuality_cases. Qed.

Lemma estimateQuality_thresholds_witness :
  estimateQuality 30001 100 100
  = if 3 * (100 * 100) <? 30001 then 95
    else if 2 * (100 * 100) <? 30001 then 85
    else if 100 * 100 <? 30001 then 75
    else 65.
Proof. apply (estimateQuality_thresholds 30001 100 100). lia. Defined.

(** X2. For the same dimensions, a larger file never gets a lower estimate,
    and the estimate is one of 65, 75, 85 and 95. *)
Theorem estimateQuality_monotone (size size' width height : Z) :
  0 < width * height ->
  size <= size' ->
  estimateQuality size width height <= estimateQuality size' width height /\
  65 <= estimateQuality size width height <= 95.
Proof.
  intros Hpixels Hsize.
  rewrite (estimateQuality_cases size), (estimateQuality_cases size')
    by exact Hpixels.
  repeat match goal with |- context [?a <? ?b] => destruct (Z.ltb_spec a b) end; lia.
Qed.

Lemma estimateQuality_monotone_witness :
  estimateQuality 15000 100 100 <= estimateQuality 25000 100 100 /\
  65 <= estimateQuality 15000 100 100 <= 95.
Proof. apply (estimateQuality_monotone 15000 25000 100 100); lia. Defined.

(** X3. When the number of pixels is zero the division is by zero and does
    not throw: a file that is not empty is estimated at 95 (an infinite
    density), an empty one at 65 (NaN compares false with everything). *)
Theorem estimateQuality_without_pixels (size width height : Z) :
  width * height = 0 ->
  estimateQuality size width height = if 0 <? size then 95 else 65.
Proof.
  intros Hzero. unfold estimateQuality. cbv zeta. rewrite Hzero.
  unfold JS.div. simpl.
  destruct (Z.eqb_spec size 0) as [-> | Hne]; [reflexivity |].
  by destruct (0 <? size).
Qed.

Lemma estimateQuality_without_pixels_witness :
  estimateQuality 1 640 0 = if 0 <? 1 then 95 else 65.
Proof. apply (estimateQuality_without_pixels 1 640 0). reflexivity. Defined.

(** ** The engine, whatever the codec does *)

Lemma loop_case_quality q s f o :
  loop_case q s = Some (f, o) -> o = {| fo_quality := q; fo_progressive := None |}.
Proof.
  unfold loop_case. intros H.
  switch_cases H ltac:(by simplify_eq). discriminate.
Qed.

(** One turn of the loop, and the test that ends it. *)
Lemma fit_loop_step P fuel options p b q a f o :
  exceeds b (targetSizeKB options) = true -> 10 < q -> a < maxAttempts ->
  loop_case (q - 15) (JS.toLowerCase (outputFormat options)) = Some (f, o) ->
  fit_loop P (S fuel) options p b q a
  = bind (toBuffer P (set_format f o p))
         (fun b' => fit_loop P fuel options (set_format f o p) b' (q - 15) (a + 1)).
Proof.
  intros Hsize Hq Ha Hcase. simpl. rewrite Hsize, Hcase.
  replace (q >? 10) with true by (symmetry; apply Z.gtb_lt; lia).
  by replace (a <? maxAttempts) with true by (symmetry; apply Z.ltb_lt; lia).
Qed.

Lemma fit_loop_done P fuel options p b q a w :
  exceeds b (targetSizeKB options) = false \/ q <= 10 ->
  fit_loop P fuel options p b q a w = (Returned b, w).
Proof.
  intros Hdone.
  assert (exceeds b (targetSizeKB options) && (q >? 10) && (a <? maxAttempts) = false)
    as Hcond.
  { destruct Hdone as [-> | Hq]; [reflexivity |].
    replace (q >? 10) with false by (symmetry; rewrite Z.gtb_ltb; apply Z.ltb_ge; lia).
    by rewrite andb_false_r. }
  destruct fuel; simpl; by rewrite Hcond.
Qed.

Lemma fit_loop_invariant P options fuel : forall p b q a w,
  exists outcome es,
    fit_loop P fuel options p b q a w = (outcome, add_events w es) /\
    (length es <= fuel)%nat /\
    Forall (reencode_of p q) es /\
    (outcome = OutOfFuel \/ exists r, outcome = settle r).
Proof.
  induction fuel as [|fuel IH]; intros p b q a w; simpl.
  - destruct (_ && _); eexists _, []; rewrite add_events_nil;
      (split; [reflexivity |]); (split; [simpl; lia |]); (split; [constructor |]).
    + by left.
    + right. by exists (inr b).
  - destruct (exceeds b (targetSizeKB options)) eqn:Hsize;
      [destruct (Z.gtb_spec q 10) as [Hq | Hq] |]; simpl.
    2, 3: eexists _, []; rewrite add_events_nil;
      (split; [reflexivity |]); (split; [simpl; lia |]); (split; [constructor |]);
      right; by exists (inr b).
    destruct (a <? maxAttempts).
    2: { eexists _, []. rewrite add_events_nil.
         split; [reflexivity |]. split; [simpl; lia |]. split; [constructor |].
         right. by exists (inr b). }
    destruct (loop_case _ _) as [[f o] |] eqn:Hcase.
    + apply loop_case_quality in Hcase as ->.
      set (p' := set_format f {| fo_quality := q - 15; fo_progressive := None |} p).
      assert (reencode_of p q (EvToBuffer p')) as Hfirst
        by (exists p', (q - 15); repeat split; lia).
      unfold bind. rewrite toBuffer_run.
      destruct (sharp_toBuffer P p') as [message | b'] eqn:Henc; simpl.
      * eexists _, [_]. split; [reflexivity |]. split; [simpl; lia |].
        split; [by constructor |]. right. by exists (inl message).
      * destruct (IH p' b' (q - 15) (a + 1) (add_events w [EvToBuffer p']))
          as (outcome & es & -> & Hlen & Hes & Hout).
        exists outcome, (EvToBuffer p' :: es). rewrite add_events_app.
        split; [reflexivity |]. split; [simpl; lia |]. split; [| exact Hout].
        constructor; [exact Hfirst |].
        eapply Forall_impl; [exact Hes |].
        intros e (p'' & q'' & -> & Hin & Hre & Hq'' & Hbound).
        exists p'', q''. repeat split; try done; lia.
    + destruct (IH p b (q - 15) (a + 1) w) as (outcome & es & -> & Hlen & Hes & Hout).
      exists outcome, es. split; [reflexivity |]. split; [lia |]. split; [| exact Hout].
      eapply Forall_impl; [exact Hes |].
      intros e (p'' & q'' & -> & Hin & Hre & Hq'' & Hbound).
      exists p'', q''. repeat split; try done; lia.
Qed.

(** The run of a conversion: the entry, then at most six encodes, and an
    outcome that is a buffer or an error with the prefix of the engine. *)
Lemma convertImage_shape P input options w :
  exists outcome es,
    convertImage P input options w
    = (outcome, add_events w (EvConvert input options :: es)) /\
    (length es <= 6)%nat /\
    Forall (encode_of input options (JS.or_default (quality options) 80)) es /\
    exists r, outcome = conversion_error r.
Proof.
  rewrite convertImage_stages. cbv zeta.
  destruct (initial_case _ _) as [[f o] |] eqn:Hcase.
  2: { exists (Thrown ("Image conversion failed: Unsupported output format: "
                       +:+ outputFormat options)), [].
       split; [reflexivity |]. split; [simpl; lia |]. split; [constructor |].
       by exists (inl ("Unsupported output format: " +:+ outputFormat options)). }
  set (q0 := JS.or_default (quality options) 80) in *.
  set (p0 := set_format f o (resize_stage input options)).
  assert (encode_of input options q0 (EvToBuffer p0)) as Hfirst.
  { exists p0, q0. split; [reflexivity |]. split; [apply resize_stage_input |].
    split; [reflexivity |]. split; [| by left].
    simpl. by rewrite (initial_case_quality _ _ _ _ Hcase). }
  destruct (sharp_toBuffer P p0) as [message | b].
  { exists (Thrown ("Image conversion failed: " +:+ message)), [EvToBuffer p0].
    split; [reflexivity |]. split; [simpl; lia |]. split; [by constructor |].
    by exists (inl message). }
  destruct (_ && _).
  2: { exists (Returned b), [EvToBuffer p0].
       split; [reflexivity |]. split; [simpl; lia |]. split; [by constructor |].
       by exists (inr b). }
  unfold try_catch.
  destruct (fit_loop_invariant P options (Z.to_nat maxAttempts) p0 b q0 0
              (add_events w [EvConvert input options; EvToBuffer p0]))
    as (outcome & es & Hrun & Hlen & Hes & Hout).
  pose proof (fit_loop_total P options (Z.to_nat maxAttempts) p0 b q0 0
                (add_events w [EvConvert input options; EvToBuffer p0])
                ltac:(unfold maxAttempts; lia)) as Htotal.
  rewrite Hrun in Htotal |- *. cbn [fst] in Htotal.
  assert (Forall (encode_of input options q0) (EvToBuffer p0 :: es)) as Hall.
  { constructor; [exact Hfirst |]. eapply Forall_impl; [exact Hes |].
    intros e (p' & q' & -> & Hin & Hre & Hq' & Hbound).
    exists p', q'. split; [reflexivity |].
    split; [by rewrite Hin; apply resize_stage_input |].
    split; [by rewrite Hre |]. split; [exact Hq' | by right]. }
  change (Z.to_nat maxAttempts) with 5%nat in Hlen.
  destruct Hout as [-> | [[message | b'] ->]].
  - done.
  - exists (Thrown ("Image conversion failed: " +:+ message)), (EvToBuffer p0 :: es).
    rewrite add_events_app. split; [reflexivity |]. split; [simpl; lia |].
    split; [exact Hall |]. by exists (inl message).
  - exists (Returned b'), (EvToBuffer p0 :: es).
    rewrite add_events_app. split; [reflexivity |]. split; [simpl; lia |].
    split; [exact Hall |]. by exists (inr b').
Qed.

(** X4. The palette of an analysis never fails and always has three colours.
    For an image whose statistics can be computed they are, in this order,
    the dominant colour [rgb(r, g, b)], the same with the red channel
    lowered by 30 and the same with the green channel lowered by 30, neither
    going below 0; the blue channel is never varied. When the statistics
    cannot be computed they are the three fixed greys. *)
Theorem palette_always_has_three_colours (P : Platform) (buffer : Buffer) (w : World) :
  exists colors,
    analyzeImageColors P buffer w = (Returned colors, add_events w [EvStats buffer]) /\
    length colors = 3%nat /\
    (forall dominant, sharp_stats P buffer = inr dominant ->
       colors
       = [ rgb (dom_r dominant) (dom_g dominant) (dom_b dominant);
           rgb (Z.max 0 (dom_r dominant - 30)) (dom_g dominant) (dom_b dominant);
           rgb (dom_r dominant) (Z.max 0 (dom_g dominant - 30)) (dom_b dominant) ]) /\
    (forall message, sharp_stats P buffer = inl message ->
       colors = ["#888888"; "#666666"; "#444444"]).
Proof.
  unfold analyzeImageColors, try_catch, bind, stats, bind. rewrite emit_run.
  destruct (sharp_stats P buffer) as [message | dominant]; simpl;
    eexists; (split; [reflexivity |]); (split; [reflexivity |]);
    split; intros ? ?; by simplify_eq.
Qed.

(** A dominant colour with little green: the green variant stops at 0. *)
Example palette_of_a_red_image :
  (analyzeImageColors Fixture.stubborn [Byte.x01] initial_world).1
  = Returned ["rgb(200, 20, 30)"; "rgb(170, 20, 30)"; "rgb(200, 0, 30)"].
Proof. reflexivity. Qed.

(** X5. The analysis route always answers, with status 400 exactly when no
    file was sent and otherwise 200 or 500; it only reads the metadata and
    the statistics of the file: it never enters the engine, never encodes,
    and stores nothing. *)
Theorem analysis_only_reads (P : Platform) (req : Request) (w : World) :
  exists response es,
    analyze_image P req w = (Returned response, add_events w es) /\
    Forall (fun e => exists b, e = EvMetadata b \/ e = EvStats b) es /\
    temp (add_events w es) = temp w /\
    (status response = 400 <-> req_file req = None) /\
    (status response = 200 \/ status response = 400 \/ status response = 500).
Proof.
  unfold analyze_image, try_catch.
  destruct (req_file req) as [file |] eqn:Hfile.
  - unfold bind at 1. rewrite getImageInfo_run.
    destruct (sharp_metadata P (file_buffer file)) as [message | md].
    + eexists _, [_]. split; [reflexivity |]. split; [repeat constructor; eauto |].
      simpl. repeat split; try done; eauto.
    + unfold bind.
      destruct (analyzeImageColors_run P (file_buffer file)
                  (add_events w [EvMetadata (file_buffer file)])) as [colors ->].
      rewrite add_events_app. eexists _, [_; _].
      split; [reflexivity |]. split; [repeat constructor; eauto |].
      simpl. repeat split; try done; eauto.
  - exists (error_response 400 "No file provided"), []. rewrite add_events_nil.
    split; [reflexivity |]. split; [constructor |].
    simpl. repeat split; eauto.
Qed.



(** X7. Whatever fails inside a conversion (an unsupported format, the
    initial encode, a re-encode of the loop), the error that leaves
    [convertImage] has a message that starts with
    [Image conversion failed: ]. *)
Theorem conversion_errors_carry_the_prefix (P : Platform) (input : Buffer)
    (options : ConvertOptions) (w w' : World) (message : string) :
  convertImage P input options w = (Thrown message, w') ->
  exists cause, message = "Image conversion failed: " +:+ cause.
Proof.
  destruct (convertImage_shape P input options w) as (outcome & es & -> & _ & _ & r & ->).
  destruct r as [cause | b]; simpl; intros [= <- _]; eauto.
Qed.

Lemma conversion_errors_carry_the_prefix_witness :
  let options :=
    Fixture.options "bmp" JS.Undefined JS.Undefined JS.Undefined true JS.Undefined in
  convertImage Fixture.stubborn [Byte.x01] options initial_world
  = (Thrown "Image conversion failed: Unsupported output format: bmp",
     add_events initial_world [EvConvert [Byte.x01] options]) /\
  exists cause,
    "Image conversion failed: Unsupported output format: bmp"
    = "Image conversion failed: " +:+ cause.
Proof.
  intros options. split; [reflexivity |].
  apply (conversion_errors_carry_the_prefix Fixture.stubborn [Byte.x01]
           (Fixture.options "bmp" JS.Undefined JS.Undefined JS.Undefined true JS.Undefined)
           initial_world
           (add_events initial_world
              [EvConvert [Byte.x01]
                 (Fixture.options "bmp" JS.Undefined JS.Undefined JS.Undefined true
                    JS.Undefined)])).
  reflexivity.
Defined.

(** The encodes of a conversion, whatever the target and the codec: the
    pipelines [0] to [n] of the format, [n <= 5], and a re-encode only after
    an encode at a quality above 10. *)
Lemma convertImage_encodes P input options f o w :
  let q0 := JS.or_default (quality options) 80 in
  let p0 := set_format f o (resize_stage input options) in
  initial_case q0 (JS.toLowerCase (outputFormat options)) = Some (f, o) ->
  exists n, (n <= 5)%nat /\
    convertImage P input options w
    = (conversion_error (sharp_toBuffer P (attempt p0 f q0 n)),
       add_events w (EvConvert input options
                     :: (EvToBuffer <$> (attempt p0 f q0 <$> seq 0 (S n))))) /\
    forall j, (j < n)%nat -> 10 < q0 - 15 * Z.of_nat j.
Proof.
  intros q0 p0 Hcase.
  pose proof (convertImage_stages P input options w) as Hrun.
  cbv zeta in Hrun. fold q0 in Hrun. rewrite Hcase in Hrun. fold p0 in Hrun.
  assert (Hone : forall r,
    convertImage P input options w
    = (conversion_error r, add_events w [EvConvert input options; EvToBuffer p0]) ->
    sharp_toBuffer P p0 = r ->
    exists n, (n <= 5)%nat /\
      convertImage P input options w
      = (conversion_error (sharp_toBuffer P (attempt p0 f q0 n)),
         add_events w (EvConvert input options
                       :: (EvToBuffer <$> (attempt p0 f q0 <$> seq 0 (S n))))) /\
      forall j, (j < n)%nat -> 10 < q0 - 15 * Z.of_nat j).
  { intros r Hr Hfirst. exists 0%nat. split; [lia |]. split; [| intros j Hj; lia].
    cbn [attempt seq fmap list_fmap]. by rewrite Hfirst. }
  destruct (sharp_toBuffer P p0) as [message | b] eqn:Hfirst;
    [by apply (Hone (inl message)) |].
  destruct (targetSizeKB options) as [| | T] eqn:Htarget;
    [by apply (Hone (inr b)) | by apply (Hone (inr b)) |].
  cbn [JS.truthy exceeds] in Hrun.
  destruct (negb (T =? 0) && (buffer_length b >? T * 1024)) eqn:Hloop;
    [| by apply (Hone (inr b))].
  destruct (tiff_or_not f) as [Htiff | Hf].
  { subst f. apply (Hone (inr b)); [| done].
    rewrite Hrun. unfold try_catch.
    rewrite fit_loop_no_case;
      [done | by apply (loop_case_tiff q0 _ o) | unfold maxAttempts; lia]. }
  destruct (fit_loop_run P options p0 f q0 T
              (loop_case_of_initial _ _ _ _ Hcase Hf) Htarget 5 0%nat b
              (add_events w [EvConvert input options; EvToBuffer p0]) eq_refl Hfirst)
    as (n & Hn & Hfit & _ & Hmin).
  exists n. split; [lia |]. split.
  - rewrite Hrun. unfold try_catch.
    change (Z.to_nat maxAttempts) with 5%nat.
    cbn [attempt] in Hfit. change (Z.of_nat 0) with 0 in Hfit.
    replace (q0 - 15 * 0) with q0 in Hfit by lia.
    rewrite Hfit, conversion_error_settle, add_events_app, Nat.sub_0_r. reflexivity.
  - intros j Hj. specialize (Hmin j ltac:(lia)). unfold stops in Hmin.
    destruct (sharp_toBuffer P (attempt p0 f q0 j)); [by destruct Hmin | lia].
Qed.

(** X8. A conversion calls the encoder at most six times, whatever the codec
    answers, and each time on the input of the conversion with the resize of
    the resize stage. The encodes are in order of quality: the first is at
    the requested or default quality [q0] and the [k]-th re-encode is at
    [q0 - 15 * k], which is above -5: the loop never asks for a quality of -5
    or less, and it can ask for a quality of zero or less. *)
Theorem conversion_encodes_at_most_six_times (P : Platform) (input : Buffer)
    (options : ConvertOptions) (w : World) :
  let q0 := JS.or_default (quality options) 80 in
  exists outcome es,
    convertImage P input options w
    = (outcome, add_events w (EvConvert input options :: es)) /\
    (length es <= 6)%nat /\
    forall k e, es !! k = Some e ->
      exists p,
        e = EvToBuffer p /\
        p_input p = input /\
        p_resize p = p_resize (resize_stage input options) /\
        out_quality <$> p_output p = Some (q0 - 15 * Z.of_nat k) /\
        ((0 < k)%nat -> -5 < q0 - 15 * Z.of_nat k).
Proof.
  intros q0.
  destruct (initial_case q0 (JS.toLowerCase (outputFormat options)))
    as [[f o] |] eqn:Hcase.
  2: { eexists _, []. split; [| split; [simpl; lia | by intros k e]].
       apply convertImage_unsupported. by apply (initial_case_None q0). }
  destruct (convertImage_encodes P input options f o w Hcase)
    as (n & Hn & Hrun & Hmin).
  fold q0 in Hrun, Hmin.
  eexists _, _. split; [exact Hrun |].
  split; [rewrite !length_fmap, length_seq; lia |].
  intros k e Hk. rewrite !list_lookup_fmap in Hk.
  destruct (seq 0 (S n) !! k) as [k' |] eqn:Hseq; [| done].
  apply lookup_seq in Hseq as [-> Hlt]. simpl in Hk. injection Hk as <-.
  eexists. split; [reflexivity |].
  rewrite attempt_input, attempt_resize.
  split; [apply resize_stage_input |]. split; [reflexivity |]. split.
  - destruct k as [|k]; [| apply attempt_quality; lia].
    simpl. rewrite (initial_case_quality _ _ _ _ Hcase). f_equal. lia.
  - intros Hpos. specialize (Hmin (k - 1)%nat ltac:(lia)). lia.
Qed.

(** With the default quality and a target that is never met: six encodes. *)
Example six_encodes :
  let options :=
    Fixture.options "webp" JS.Undefined JS.Undefined JS.Undefined true (JS.Int 1) in
  encode_qualities
    (trace (convertImage Fixture.stubborn [Byte.x01] options initial_world).2)
  = [80; 65; 50; 35; 20; 5].
Proof. reflexivity. Qed.

(** X9. No conversion enlarges the image: with a resize that honours
    [withoutEnlargement], every pipeline that a conversion encodes, re-encodes
    included, gives dimensions within those of the source. *)
Theorem conversion_never_enlarges (g : Geometry) (P : Platform) (input : Buffer)
    (options : ConvertOptions) (w : World) (sw sh : Z) :
  never_enlarges g ->
  forall p,
    In (EvToBuffer p)
       (drop (length (trace w)) (trace (convertImage P input options w).2)) ->
    (output_dimensions g (sw, sh) p).1 <= sw /\
    (output_dimensions g (sw, sh) p).2 <= sh.
Proof.
  intros Hg p.
  destruct (convertImage_shape P input options w) as (outcome & es & -> & _ & Hes & _).
  cbn [snd add_events trace]. rewrite drop_app_length.
  intros [Hin | Hin]; [discriminate |].
  rewrite Forall_forall in Hes. apply list_elem_of_In, Hes in Hin.
  destruct Hin as (p' & q & [= <-] & _ & Hre & _).
  unfold output_dimensions. rewrite Hre.
  apply (resize_stage_never_enlarges g input options sw sh Hg).
Qed.

Lemma conversion_never_enlarges_witness :
  let options :=
    Fixture.options "jpeg" JS.Undefined (JS.Int 200) (JS.Int 200) false (JS.Int 1) in
  let p :=
    set_format JPEG {| fo_quality := 65; fo_progressive := None |}
      (set_format JPEG {| fo_quality := 80; fo_progressive := Some true |}
         (resize_stage [Byte.x01] options)) in
  (output_dimensions fill_geometry (100, 100) p).1 <= 100 /\
  (output_dimensions fill_geometry (100, 100) p).2 <= 100.
Proof.
  intros options p.
  apply (conversion_never_enlarges fill_geometry Fixture.stubborn [Byte.x01] options
           initial_world 100 100 fill_geometry_never_enlarges p).
  vm_compute. right; right; left. reflexivity.
Defined.



(** X11. A requested quality from 11 to 25 is lowered once: when the target
    is set and the initial encode is larger, there is exactly one re-encode,
    at the requested quality minus 15, and its result is the result of the
    conversion, whether the buffer fits or the codec rejects the quality.
    From 11 to 15 the quality of that re-encode is zero or negative. *)
Theorem low_quality_is_lowered_once (P : Platform) (input : Buffer)
    (options : ConvertOptions) (f : Format) (o : FormatOptions) (b : Buffer) (w : World) :
  let q0 := JS.or_default (quality options) 80 in
  let p0 := set_format f o (resize_stage input options) in
  let p1 := set_format f {| fo_quality := q0 - 15; fo_progressive := None |} p0 in
  initial_case q0 (JS.toLowerCase (outputFormat options)) = Some (f, o) ->
  f <> TIFF ->
  sharp_toBuffer P p0 = inr b ->
  JS.truthy (targetSizeKB options) = true ->
  exceeds b (targetSizeKB options) = true ->
  10 < q0 <= 25 ->
  convertImage P input options w
  = (conversion_error (sharp_toBuffer P p1),
     add_events w [EvConvert input options; EvToBuffer p0; EvToBuffer p1]).
Proof.
  intros q0 p0 p1 Hcase Hf Henc Htarget Hsize Hq. rewrite convertImage_stages. cbv zeta.
  fold q0. rewrite Hcase. fold p0. rewrite Henc, Htarget, Hsize. cbn [andb].
  unfold try_catch. change (Z.to_nat maxAttempts) with 5%nat.
  rewrite (fit_loop_step P 4 options p0 b q0 0 f
             {| fo_quality := q0 - 15; fo_progressive := None |});
    [| exact Hsize | lia | unfold maxAttempts; lia
     | exact (loop_case_of_initial _ _ _ _ Hcase Hf (q0 - 15))].
  fold p1. unfold bind. rewrite toBuffer_run, add_events_app.
  destruct (sharp_toBuffer P p1) as [message | b1]; unfold settle, conversion_error;
    cbv beta match; [reflexivity |].
  rewrite fit_loop_done by (right; lia). reflexivity.
Qed.

(** Quality 12 against a target of 1 KB: the re-encode is asked at -3. *)
Lemma low_quality_is_lowered_once_witness :
  let options :=
    Fixture.options "webp" (JS.Int 12) JS.Undefined JS.Undefined true (JS.Int 1) in
  let p0 := set_format WEBP {| fo_quality := 12; fo_progressive := None |}
                       (resize_stage [Byte.x01] options) in
  let p1 := set_format WEBP {| fo_quality := 12 - 15; fo_progressive := None |} p0 in
  convertImage Fixture.stubborn [Byte.x01] options initial_world
  = (conversion_error (sharp_toBuffer Fixture.stubborn p1),
     add_events initial_world [EvConvert [Byte.x01] options; EvToBuffer p0; EvToBuffer p1]).
Proof.
  intros options p0 p1.
  apply (low_quality_is_lowered_once Fixture.stubborn [Byte.x01] options WEBP
           {| fo_quality := 12; fo_progressive := None |} (Fixture.bytes 2000)
           initial_world);
    [reflexivity | discriminate | reflexivity | reflexivity | reflexivity | simpl; lia].
Defined.

(** ** What the routes store *)

(** A conversion that is stored adds one file to the temp directory, the
    buffer that [convertImage] returned, under the name of the result; one
    that fails adds none. *)
Lemma convert_and_store_temp P req file info fmt o w :
  (exists result buffer w',
     convert_and_store P req file info fmt o w = (Returned result, w') /\
     temp w' = (temp w ++ [(conv_name (convertedFile result), buffer)])%list /\
     conv_size (convertedFile result) = buffer_length buffer /\
     conv_url (convertedFile result) = file_url req (conv_name (convertedFile result)) /\
     exists w1, convertImage P (file_buffer file) o w = (Returned buffer, w1)) \/
  (exists message w',
     convert_and_store P req file info fmt o w = (Thrown message, w') /\
     temp w' = temp w).
Proof.
  unfold convert_and_store, bind.
  destruct (convertImage_shape P (file_buffer file) o w)
    as (outcome & es & -> & _ & _ & [message | buffer] & ->); simpl.
  { right. eauto. }
  rewrite getImageInfo_run.
  destruct (sharp_metadata P buffer) as [message | md]; [right; eauto |].
  unfold fresh_uuid, saveToTemp. cbn [uuids trace temp add_events].
  destruct (fs_writeFile P _ buffer) as [message |]; [right; eauto |].
  left. eexists _, buffer, _. split; [reflexivity |]. simpl.
  repeat split. by eexists.
Qed.

(** X12. The single conversion route always answers. With status 200 it has
    stored exactly one file: the buffer that [convertImage] returned for the
    uploaded file and the options of the request, under the name given in the
    response, whose size is the size reported and whose URL ends with that
    name. With any other status it has stored nothing. *)
Theorem convert_image_stores_what_it_reports (P : Platform) (req : Request) (w : World) :
  exists response w',
    convert_image P req w = (Returned response, w') /\
    ((status response = 200 /\
      exists file result buffer w1,
        req_file req = Some file /\
        convertImage P (file_buffer file) (single_options (req_body req))
                     (add_events w [EvMetadata (file_buffer file)])
        = (Returned buffer, w1) /\
        body response = ConversionBody result /\
        temp w' = (temp w ++ [(conv_name (convertedFile result), buffer)])%list /\
        conv_size (convertedFile result) = buffer_length buffer /\
        conv_url (convertedFile result)
        = file_url req (conv_name (convertedFile result))) \/
     (status response <> 200 /\ temp w' = temp w)).
Proof.
  unfold convert_image, try_catch.
  destruct (req_file req) as [file |];
    [| eexists _, _; split; [reflexivity |]; right; by split].
  cbv zeta. destruct (negb _);
    [eexists _, _; split; [reflexivity |]; right; by split |].
  unfold bind at 1. rewrite getImageInfo_run.
  destruct (sharp_metadata P (file_buffer file)) as [message | md];
    [eexists _, _; split; [reflexivity |]; right; by split |].
  unfold bind at 1. fold (single_options (req_body req)).
  match goal with
  | |- context [convert_and_store P req file ?i ?f ?o ?w0] =>
      destruct (convert_and_store_temp P req file i f o w0)
        as [(result & buffer & w' & -> & Htemp & Hsize & Hurl & w1 & Hconv)
           | (message & w' & -> & Htemp)]
  end.
  - eexists _, _. split; [reflexivity |]. left. split; [reflexivity |].
    exists file, result, buffer, w1. by repeat split.
  - eexists _, _. split; [reflexivity |]. right. by split.
Qed.

(** On a codec of 2000 bytes per encode: the 2000 bytes are what is stored. *)
Example convert_image_stores_the_encode :
  let req :=
    Fixture.request [Fixture.upload "a.png" [Byte.x01]]
      (Fixture.form (Some "webp") None None None None None None) in
  temp (convert_image Fixture.stubborn req initial_world).2
  = [("uuid0.webp", Fixture.bytes 2000)].
Proof. reflexivity. Qed.

Lemma process_file_temp P req settings file w :
  (exists result buffer w',
     process_file P req settings file w = (Returned result, w') /\
     temp w' = (temp w ++ [(conv_name (convertedFile result), buffer)])%list) \/
  (exists message w',
     process_file P req settings file w = (Thrown message, w') /\
     temp w' = temp w).
Proof.
  unfold process_file, bind. rewrite getImageInfo_run.
  destruct (sharp_metadata P (file_buffer file)) as [message | md]; [right; eauto |].
  match goal with
  | |- context [convert_and_store P req file ?i ?f ?o ?w0] =>
      destruct (convert_and_store_temp P req file i f o w0)
        as [(result & buffer & w' & -> & Htemp & _) | (message & w' & -> & Htemp)]
  end; [left | right]; eauto.
Qed.

Lemma batch_outcomes_temp P req settings w files rs w' :
  batch_outcomes P req settings w files rs w' ->
  (temp w').*1 = ((temp w).*1 ++ stored_names rs)%list.
Proof.
  induction 1 as [w | w file files r w1 rs w2 Hitem _ IH]; [by rewrite app_nil_r |].
  rewrite IH.
  destruct (process_file_temp P req settings file w)
    as [(result & buffer & w' & Hrun & Htemp) | (message & w' & Hrun & Htemp)];
    destruct Hitem as [result' w'' Hrun' | message' w'' Hrun'];
    rewrite Hrun in Hrun'; simplify_eq; rewrite Htemp.
  - rewrite fmap_app, <- app_assoc. reflexivity.
  - reflexivity.
Qed.

(** X13. After a batch the temp directory holds, in order, what it held
    before and one new file for each file that was converted, under the name
    reported for it; a file that failed has left nothing. *)
Theorem batch_stores_one_file_per_success (P : Platform) (req : Request)
    (settings : Settings) (w : World) :
  exists report w',
    run_batch P req settings w = (Returned report, w') /\
    (temp w').*1 = ((temp w).*1 ++ stored_names (results report))%list /\
    Z.of_nat (length (temp w')) = Z.of_nat (length (temp w)) + totalProcessed report.
Proof.
  unfold run_batch, bind.
  destruct (batch_loop_run P req settings (req_files req)
              {| acc_results := []; acc_errors := []; acc_totalProcessed := 0 |} w)
    as (rs & w' & Hrs & ->).
  eexists _, w'. split; [reflexivity |].
  cbn [batch_report results totalProcessed acc_results acc_totalProcessed app].
  pose proof (batch_outcomes_temp _ _ _ _ _ _ _ Hrs) as Htemp.
  split; [exact Htemp |].
  apply (f_equal length) in Htemp. rewrite length_app, !length_fmap in Htemp.
  assert (length (stored_names rs) = successes rs) as Hstored.
  { unfold stored_names, successes. clear.
    induction rs as [|[] rs IH]; simpl; [reflexivity | f_equal; exact IH | exact IH]. }
  lia.
Qed.

(** ** The validation of a batch *)

(** X14. A batch is validated before any file is touched, and each rejection
    has status 400 and leaves everything as it was: no files; a [settings]
    text that is not JSON; settings without an [outputFormat]. When a
    [settings] text is sent the form fields are not read, so an
    [outputFormat] sent as a form field does not make up for one missing in
    the JSON settings. *)
Theorem batch_is_validated_before_any_file (P : Platform)
    (JSON_parse : string -> option (option Settings)) (req : Request) (w : World) :
  (req_files req = [] ->
   convert_batch P JSON_parse req w
   = (Returned (error_response 400 "No files provided"), w)) /\
  (forall text,
     req_files req <> [] -> body_settings (req_body req) = Some text -> text <> "" ->
     JSON_parse text = None ->
     convert_batch P JSON_parse req w
     = (Returned (error_response 400 "Invalid settings JSON format"), w)) /\
  (forall text settings,
     req_files req <> [] -> body_settings (req_body req) = Some text -> text <> "" ->
     JSON_parse text = Some settings ->
     JS.truthy_str (settings ≫= s_outputFormat) = false ->
     convert_batch P JSON_parse req w
     = (Returned (error_response 400 "Settings with outputFormat are required"), w)).
Proof.
  unfold convert_batch, try_catch. split; [| split].
  - by intros ->.
  - intros text Hfiles -> Htext Hparse. destruct (req_files req); [done |].
    destruct text; [done |]. by rewrite Hparse.
  - intros text settings Hfiles -> Htext Hparse Hformat.
    destruct (req_files req); [done |].
    destruct text; [done |]. rewrite Hparse, Hformat. reflexivity.
Qed.

(** A form with [outputFormat=webp] beside a [settings] text that has none. *)
Lemma batch_is_validated_before_any_file_witness :
  let body settings :=
    {| body_outputFormat := Some "webp"; body_quality := None; body_width := None;
       body_height := None; body_maintainAspectRatio := None;
       body_targetSizeKB := None; body_preset := None; body_settings := settings |} in
  let files := [Fixture.upload "a.png" [Byte.x01]] in
  let no_format :=
    {| s_outputFormat := None; s_quality := JS.Undefined;
       s_width := JS.Undefined; s_height := JS.Undefined;
       s_maintainAspectRatio := None; s_targetSizeKB := JS.Undefined;
       s_preset := None |} in
  let empty_object := fun _ : string => Some (Some no_format) in
  convert_batch Fixture.stubborn Fixture.no_json (Fixture.request [] (body None))
                initial_world
  = (Returned (error_response 400 "No files provided"), initial_world) /\
  convert_batch Fixture.stubborn Fixture.no_json
                (Fixture.request files (body (Some "{quality: 80"))) initial_world
  = (Returned (error_response 400 "Invalid settings JSON format"), initial_world) /\
  convert_batch Fixture.stubborn empty_object
                (Fixture.request files (body (Some "{}"))) initial_world
  = (Returned (error_response 400 "Settings with outputFormat are required"),
     initial_world).
Proof.
  intros body files no_format empty_object. split; [| split].
  - apply (batch_is_validated_before_any_file Fixture.stubborn Fixture.no_json
             (Fixture.request [] (body None)) initial_world).
    reflexivity.
  - apply (proj1 (proj2 (batch_is_validated_before_any_file Fixture.stubborn
                           Fixture.no_json
                           (Fixture.request files (body (Some "{quality: 80")))
                           initial_world)) "{quality: 80");
      [discriminate | reflexivity | discriminate | reflexivity].
  - apply (proj2 (proj2 (batch_is_validated_before_any_file Fixture.stubborn
                           empty_object
                           (Fixture.request files (body (Some "{}")))
                           initial_world)) "{}" (Some no_format));
      [discriminate | reflexivity | discriminate | reflexivity | reflexivity].
Defined.

(** X15. A batch that passes validation is answered with status 200 and the
    report of the run, whether the settings came as JSON or as form fields
    and whatever happened to the files, all of them failing included. *)
Theorem valid_batch_is_always_reported (P : Platform)
    (JSON_parse : string -> option (option Settings)) (req : Request) (w : World) :
  req_files req <> [] ->
  (forall text settings,
     body_settings (req_body req) = Some text -> text <> "" ->
     JSON_parse text = Some (Some settings) ->
     JS.truthy_str (s_outputFormat settings) = true ->
     exists report w',
       run_batch P req settings w = (Returned report, w') /\
       convert_batch P JSON_parse req w = (Returned (json (BatchBody report)), w')) /\
  (body_settings (req_body req) = None \/ body_settings (req_body req) = Some "" ->
   JS.truthy_str (body_outputFormat (req_body req)) = true ->
   exists report w',
     run_batch P req (form_settings (req_body req)) w = (Returned report, w') /\
     convert_batch P JSON_parse req w = (Returned (json (BatchBody report)), w')).
Proof.
  intros Hfiles. unfold convert_batch, try_catch, run_batch, bind.
  destruct (req_files req) as [|file files] eqn:Hreq; [done |]. split.
  - intros text settings -> Htext Hparse Hformat.
    destruct text; [done |]. rewrite Hparse. cbn [mbind option_bind].
    rewrite Hformat. cbn [negb default from_option id].
    destruct (batch_loop_run P req settings (file :: files)
                {| acc_results := []; acc_errors := []; acc_totalProcessed := 0 |} w)
      as (rs & w' & _ & ->).
    eauto.
  - intros Hsettings Hformat.
    assert (match body_settings (req_body req) with
            | Some (String c text) => JSON_parse (String c text)
            | _ => Some (Some (form_settings (req_body req)))
            end = Some (Some (form_settings (req_body req)))) as ->
      by (destruct Hsettings as [-> | ->]; reflexivity).
    cbn [mbind option_bind s_outputFormat form_settings].
    rewrite Hformat. cbn [negb default from_option id].
    destruct (batch_loop_run P req (form_settings (req_body req)) (file :: files)
                {| acc_results := []; acc_errors := []; acc_totalProcessed := 0 |} w)
      as (rs & w' & _ & ->).
    eauto.
Qed.

(** Two files that do not decode. *)
Lemma valid_batch_is_always_reported_witness :
  let req :=
    Fixture.request
      [Fixture.upload "a.png" [Byte.xff]; Fixture.upload "b.png" [Byte.xff; Byte.x01]]
      (Fixture.form (Some "webp") None None None None None None) in
  exists report w',
    run_batch Fixture.picky req (form_settings (req_body req)) initial_world
    = (Returned report, w') /\
    convert_batch Fixture.picky Fixture.no_json req initial_world
    = (Returned (json (BatchBody report)), w').
Proof.
  intros req.
  apply (proj2 (valid_batch_is_always_reported Fixture.picky Fixture.no_json req
                  initial_world ltac:(discriminate)));
    [left; reflexivity | reflexivity].
Defined.

(** ** The upload filter and the middleware *)

Lemma prefix_append s rest : String.prefix s (s +:+ rest) = true.
Proof.
  induction s as [|c s IH]; [by destruct rest |].
  change (String c s +:+ rest) with (String c (s +:+ rest)). cbn [String.prefix].
  by destruct (ascii_dec c c).
Qed.

Lemma includes_own_prefix s rest : includes (s +:+ rest) s = true.
Proof.
  assert (forall t, includes t s = String.prefix s t || includes t s) as Hstep
    by (intros t; destruct t; cbn [includes];
        match goal with |- context [String.prefix ?a ?b] => by destruct (String.prefix a b) end).
  rewrite Hstep, prefix_append. reflexivity.
Qed.

(** X16. A file whose [mimetype], as multer hands it to the filter, is not
    one of the eleven accepted types is refused by the filter, and the
    middleware answers that refusal with status 400 and the message
    [Unsupported file type: ] followed by that [mimetype]. The multipart
    parser has put the type in lower case before the filter sees it, so what
    is compared, and reported, is the lower-case type. *)
Theorem refused_upload_is_a_400 (mimetype : string) :
  mimetype ∉ allowedTypes ->
  exists message,
    fileFilter mimetype = Some message /\
    error_middleware (PlainError message)
    = {| status := 400;
         body := ErrorBody ("Unsupported file type: " +:+ mimetype) |}.
Proof.
  intros Hnot. unfold fileFilter. rewrite bool_decide_eq_false_2 by exact Hnot.
  eexists. split; [reflexivity |].
  unfold error_middleware. cbn [error_message].
  change ("Unsupported file type: " +:+ mimetype)
    with ("Unsupported file type" +:+ (": " +:+ mimetype)) at 1.
  by rewrite includes_own_prefix.
Qed.

(** A HEIC photo, whose type reaches the filter as [image/heic]. *)
Lemma refused_upload_is_a_400_witness :
  exists message,
    fileFilter "image/heic" = Some message /\
    error_middleware (PlainError message)
    = {| status := 400; body := ErrorBody "Unsupported file type: image/heic" |}.
Proof.
  apply (refused_upload_is_a_400 "image/heic").
  vm_compute. intros H. by repeat (apply elem_of_cons in H as [H | H]; [discriminate |]);
    apply elem_of_nil in H.
Defined.

(** X17. The middleware does not pass on the message of an error unless it
    contains [Unsupported file type]: every other error gets one of four
    fixed answers, and an error that is not one of the three upload limits
    gets status 500 with [Internal server error]. *)
Theorem middleware_hides_other_errors (error : RequestError) :
  includes (error_message error) "Unsupported file type" = false ->
  error_middleware error ∈ fixed_error_responses /\
  (forall message, error = PlainError message ->
     error_middleware error
     = {| status := 500; body := ErrorBody "Internal server error" |}).
Proof.
  intros Hplain. unfold error_middleware, fixed_error_responses. rewrite Hplain. split.
  - destruct error as [code message | message]; [| set_solver].
    repeat (destruct (String.eqb code _); [set_solver |]). set_solver.
  - by intros message ->.
Qed.

Lemma middleware_hides_other_errors_witness :
  error_middleware (PlainError "ENOSPC: no space left on device, write")
  ∈ fixed_error_responses /\
  (forall message,
     PlainError "ENOSPC: no space left on device, write" = PlainError message ->
     error_middleware (PlainError "ENOSPC: no space left on device, write")
     = {| status := 500; body := ErrorBody "Internal server error" |}).
Proof.
  apply (middleware_hides_other_errors
           (PlainError "ENOSPC: no space left on device, write")).
  reflexivity.
Defined.

(** ** The cleanup *)

Lemma cleanup_each_deleted statSync unlinkSync now files file :
  file ∈ (cleanup_each statSync unlinkSync now files).1 ->
  file ∈ files /\
  exists mtime,
    statSync file = inr mtime /\ TEN_MINUTES < now - mtime /\ unlinkSync file = None.
Proof.
  induction files as [|f files IH]; simpl; [by intros ?%elem_of_nil |].
  destruct (statSync f) as [message | mtime] eqn:Hstat; [by intros ?%elem_of_nil |].
  destruct (Z.gtb_spec (now - mtime) TEN_MINUTES) as [Hold | Hnew].
  - destruct (unlinkSync f) as [message |] eqn:Hunlink; [by intros ?%elem_of_nil |].
    destruct (cleanup_each statSync unlinkSync now files) as [deleted error].
    simpl in *. intros [-> | Hin]%elem_of_cons.
    + split; [left |]. eauto.
    + destruct (IH Hin) as [? ?]. split; [by right | done].
  - intros Hin. destruct (IH Hin) as [? ?]. split; [by right | done].
Qed.

(** X18. A sweep only deletes files of the listing that are more than ten
    minutes old: a file that was modified ten minutes ago or less, exactly
    ten minutes included, is never deleted, whatever fails during the
    sweep. *)
Theorem cleanup_only_deletes_expired_files (statSync : string -> string + Z)
    (unlinkSync : string -> option string) (now : Z)
    (readdirSync : string + list string) (file : string) :
  file ∈ (cleanupTempFiles statSync unlinkSync now readdirSync).1 ->
  exists files mtime,
    readdirSync = inr files /\ file ∈ files /\
    statSync file = inr mtime /\ 10 * 60 * 1000 < now - mtime.
Proof.
  destruct readdirSync as [message | files]; simpl; [by intros ?%elem_of_nil |].
  intros Hin. apply cleanup_each_deleted in Hin as (? & mtime & ? & ? & _).
  by exists files, mtime.
Qed.

Lemma cleanup_only_deletes_expired_files_witness :
  let listing := inr ["new.png"; "old.png"; "edge.png"] in
  cleanupTempFiles Fixture.statSync Fixture.unlinkSync 1000000 listing
  = (["old.png"], None) /\
  exists files mtime,
    listing = inr files /\ "old.png" ∈ files /\
    Fixture.statSync "old.png" = inr mtime /\ 10 * 60 * 1000 < 1000000 - mtime.
Proof.
  intros listing. split; [reflexivity |].
  apply (cleanup_only_deletes_expired_files Fixture.statSync Fixture.unlinkSync
           1000000 listing "old.png").
  vm_compute. by left.
Defined.

(** X19. When no file-system call fails, a sweep deletes every file of the
    listing that is more than ten minutes old, in the order of the listing,
    and reports no error. *)
Theorem cleanup_deletes_all_expired_files (statSync : string -> string + Z)
    (unlinkSync : string -> option string) (now : Z) (files : list string) :
  Forall (fun file => exists mtime, statSync file = inr mtime) files ->
  Forall (fun file => expired statSync now file = true -> unlinkSync file = None) files ->
  cleanupTempFiles statSync unlinkSync now (inr files)
  = (List.filter (expired statSync now) files, None).
Proof.
  simpl. induction files as [|f files IH]; [reflexivity |].
  intros [[mtime Hstat] Hstats]%Forall_cons [Hunlink Hunlinks]%Forall_cons.
  assert (expired statSync now f = (now - mtime >? TEN_MINUTES)) as Hexpired
    by (unfold expired; by rewrite Hstat).
  cbn [cleanup_each List.filter]. rewrite Hexpired in Hunlink |- *. rewrite Hstat.
  destruct (now - mtime >? TEN_MINUTES).
  - rewrite Hunlink by reflexivity. by rewrite IH.
  - by apply IH.
Qed.

Lemma cleanup_deletes_all_expired_files_witness :
  cleanupTempFiles Fixture.statSync Fixture.unlinkSync 1000000
    (inr ["old.png"; "new.png"; "older.png"])
  = (List.filter (expired Fixture.statSync 1000000) ["old.png"; "new.png"; "older.png"],
     None).
Proof.
  apply (cleanup_deletes_all_expired_files Fixture.statSync Fixture.unlinkSync
           1000000 ["old.png"; "new.png"; "older.png"]).
  - repeat constructor; eexists; reflexivity.
  - repeat constructor; reflexivity.
Defined.

(** X20. The first file-system error ends the sweep: the files listed before
    the one that failed were handled, the one that failed and all the files
    listed after it are left, expired or not, and the message of the error
    is what the sweep logs. *)
Theorem cleanup_stops_at_the_first_error (statSync : string -> string + Z)
    (unlinkSync : string -> option string) (now : Z)
    (before after : list string) (file message : string) :
  Forall (fun file => exists mtime, statSync file = inr mtime) before ->
  Forall (fun file => expired statSync now file = true -> unlinkSync file = None) before ->
  statSync file = inl message \/
  (expired statSync now file = true /\ unlinkSync file = Some message) ->
  cleanupTempFiles statSync unlinkSync now (inr (before ++ file :: after)%list)
  = (List.filter (expired statSync now) before, Some message).
Proof.
  simpl. intros Hstats Hunlinks Hfails.
  induction before as [|f before IH].
  - simpl. destruct Hfails as [-> | [Hexpired ->]]; [reflexivity |].
    unfold expired in Hexpired.
    destruct (statSync file); [discriminate |]. by rewrite Hexpired.
  - apply Forall_cons in Hstats as [[mtime Hstat] Hstats].
    apply Forall_cons in Hunlinks as [Hunlink Hunlinks].
    assert (expired statSync now f = (now - mtime >? TEN_MINUTES)) as Hexpired
      by (unfold expired; by rewrite Hstat).
    cbn [cleanup_each List.filter app]. rewrite Hexpired in Hunlink |- *. rewrite Hstat.
    destruct (now - mtime >? TEN_MINUTES).
    + rewrite Hunlink by reflexivity. by rewrite IH.
    + by apply IH.
Qed.

(** [busy.png] cannot be unlinked: [older.png], listed after it, stays. *)
Lemma cleanup_stops_at_the_first_error_witness :
  cleanupTempFiles Fixture.statSync Fixture.unlinkSync 1000000
    (inr (["old.png"; "new.png"] ++ "busy.png" :: ["older.png"])%list)
  = (List.filter (expired Fixture.statSync 1000000) ["old.png"; "new.png"],
     Some "EBUSY: resource busy or locked").
Proof.
  apply (cleanup_stops_at_the_first_error Fixture.statSync Fixture.unlinkSync 1000000
           ["old.png"; "new.png"] ["older.png"] "busy.png"
           "EBUSY: resource busy or locked").
  - repeat constructor; eexists; reflexivity.
  - repeat constructor; reflexivity.
  - right. split; reflexivity.
Defined.

(** ** The enhancement route *)

Lemma enhancement_operations_default enhancement :
  (forall s, enhancement = Some s -> s ∉ enhancements) ->
  enhancement_operations enhancement = [Normalize].
Proof.
  destruct enhancement as [s |]; [| reflexivity]. intros Hs.
  specialize (Hs s eq_refl). unfold enhancement_operations, enhancements in *.
  repeat match goal with
         | |- context [String.eqb s ?name] =>
             destruct (String.eqb_spec s name) as [-> | _];
             [exfalso; apply Hs; set_solver |]
         end.
  reflexivity.
Qed.

(** X21. An enhancement that is missing, or none of the five names the
    route knows, is not refused: the pipeline is [normalize] alone, encoded
    as [png] at quality 90 and stored as [enhanced_<uuid>.png]. The response
    repeats the name as sent, and says [auto] when none was sent, although
    the pipeline of [auto] is another one (it also sharpens). *)
Theorem unknown_enhancement_is_normalize (P : Platform)
    (sharp_enhance : Buffer -> list Operation -> Z -> string + Buffer)
    (req : Request) (enhancement : option string) (file : Upload)
    (md md' : Metadata) (b : Buffer) (w : World) :
  let filename := "enhanced_" +:+ uuidv4 P (uuids w) +:+ ".png" in
  req_file req = Some file ->
  (forall s, enhancement = Some s -> s ∉ enhancements) ->
  sharp_metadata P (file_buffer file) = inr md ->
  sharp_enhance (file_buffer file) [Normalize] 90 = inr b ->
  sharp_metadata P b = inr md' ->
  fs_writeFile P filename b = None ->
  enhancement_operations (Some "auto") <> [Normalize] /\
  enhance_image P sharp_enhance req enhancement w
  = (Returned
       {| enh_status := 200;
          enh_body := Enhanced
            {| enh_original_name := originalname file;
               enh_original_size := buffer_length (file_buffer file);
               enh_original_width := md_width md;
               enh_original_height := md_height md;
               enh_name := filename;
               enh_size := buffer_length b;
               enh_width := md_width md';
               enh_height := md_height md';
               enh_url := file_url req filename;
               enh_enhancement :=
                 match enhancement with
                 | Some (String c s) => String c s
                 | _ => "auto"
                 end |} |},
     {| trace := trace w ++ [EvMetadata (file_buffer file); EvMetadata b];
        uuids := S (uuids w);
        temp := temp w ++ [(filename, b)] |}).
Proof.
  intros filename Hfile Hunknown Hmd Henc Hmd' Hwrite. split; [discriminate |].
  unfold enhance_image, try_catch. rewrite Hfile.
  unfold bind at 1. rewrite getImageInfo_run, Hmd.
  rewrite (enhancement_operations_default _ Hunknown). cbv zeta.
  unfold bind at 1. rewrite Henc. cbn [of_result ret].
  unfold bind at 1. rewrite getImageInfo_run, Hmd'.
  unfold bind at 1, fresh_uuid, bind, saveToTemp. cbn [uuids add_events trace temp].
  fold filename. rewrite Hwrite. cbn [ret info_of size width height].
  rewrite <- app_assoc. cbn [app].
  by destruct enhancement as [[|c s] |].
Qed.

(** No enhancement sent: [normalize], answered as [auto]. *)
Lemma unknown_enhancement_is_normalize_witness :
  let enhance := fun (input : Buffer) (ops : list Operation) (q : Z) =>
    inr (input ++ Fixture.bytes (Z.of_nat (length ops)))%list : string + Buffer in
  let req :=
    Fixture.request [Fixture.upload "a.png" [Byte.x01]]
      (Fixture.form None None None None None None None) in
  enhancement_operations (Some "auto") <> [Normalize] /\
  enhance_image Fixture.stubborn enhance req None initial_world
  = (Returned
       {| enh_status := 200;
          enh_body := Enhanced
            {| enh_original_name := "a.png";
               enh_original_size := 1;
               enh_original_width := 100;
               enh_original_height := 100;
               enh_name := "enhanced_uuid0.png";
               enh_size := 2;
               enh_width := 100;
               enh_height := 100;
               enh_url := "http://localhost:3005/temp/enhanced_uuid0.png";
               enh_enhancement := "auto" |} |},
     {| trace := [EvMetadata [Byte.x01]; EvMetadata [Byte.x01; Byte.x00]];
        uuids := 1;
        temp := [("enhanced_uuid0.png", [Byte.x01; Byte.x00])] |}).
Proof.
  intros enhance req.
  apply (unknown_enhancement_is_normalize Fixture.stubborn enhance req None
           (Fixture.upload "a.png" [Byte.x01])
           (Fixture.opaque_png 100 100) (Fixture.opaque_png 100 100)
           [Byte.x01; Byte.x00] initial_world);
    [reflexivity | discriminate | reflexivity | reflexivity | reflexivity | reflexivity].
Defined.

(** X22. The enhancement route always answers. With status 200 it has stored
    exactly one file, named [enhanced_<uuid>.png]: the buffer that the
    filters of the requested enhancement gave, whose size is the size
    reported. With status 400 or 500 it has stored nothing. *)
Theorem enhance_image_stores_what_it_reports (P : Platform)
    (sharp_enhance : Buffer -> list Operation -> Z -> string + Buffer)
    (req : Request) (enhancement : option string) (w : World) :
  exists response w',
    enhance_image P sharp_enhance req enhancement w = (Returned response, w') /\
    ((enh_status response = 200 /\
      exists file result b,
        req_file req = Some file /\
        enh_body response = Enhanced result /\
        sharp_enhance (file_buffer file) (enhancement_operations enhancement) 90 = inr b /\
        enh_name result = "enhanced_" +:+ uuidv4 P (uuids w) +:+ ".png" /\
        enh_size result = buffer_length b /\
        temp w' = (temp w ++ [(enh_name result, b)])%list) \/
     ((enh_status response = 400 \/ enh_status response = 500) /\ temp w' = temp w)).
Proof.
  unfold enhance_image, try_catch.
  destruct (req_file req) as [file |];
    [| eexists _, _; split; [reflexivity |]; right; split; [by left | done]].
  unfold bind at 1. rewrite getImageInfo_run.
  destruct (sharp_metadata P (file_buffer file)) as [message | md];
    [eexists _, _; split; [reflexivity |]; right; split; [by right | done] |].
  cbv zeta. unfold bind at 1.
  destruct (sharp_enhance _ _ 90) as [message | b] eqn:Henc; cbn [of_result throw ret];
    [eexists _, _; split; [reflexivity |]; right; split; [by right | done] |].
  unfold bind at 1. rewrite getImageInfo_run.
  destruct (sharp_metadata P b) as [message | md'];
    [eexists _, _; split; [reflexivity |]; right; split; [by right | done] |].
  unfold bind at 1, fresh_uuid, bind, saveToTemp. cbn [uuids add_events trace temp].
  destruct (fs_writeFile P _ b) as [message |];
    [eexists _, _; split; [reflexivity |]; right; split; [by right | done] |].
  eexists _, _. split; [reflexivity |]. left. split; [reflexivity |].
  eexists file, _, b. by repeat split.
Qed.

(** ** Conversion from a URL *)

Lemma apply_preset_maintainAspectRatio preset o :
  maintainAspectRatio (apply_preset preset o) = maintainAspectRatio o.
Proof. unfold apply_preset. by destruct (_ && _). Qed.

(** X23. The URL route rejects with status 400, before anything is decoded
    and leaving everything as it was: a request without [imageUrl]; then one
    without [outputFormat]; then one whose download fails, with the message
    of the download error. *)
Theorem url_request_is_rejected_before_decoding (P : Platform)
    (axios_get : string -> string + Buffer) (req : Request) (b : UrlBody) (w : World) :
  (JS.truthy_str (url_imageUrl b) = false ->
   convert_from_url P axios_get req b w
   = (Returned (url_error 400 "imageUrl is required"), w)) /\
  (JS.truthy_str (url_imageUrl b) = true ->
   JS.truthy_str (url_outputFormat b) = false ->
   convert_from_url P axios_get req b w
   = (Returned (url_error 400 "outputFormat is required"), w)) /\
  (forall message,
     JS.truthy_str (url_imageUrl b) = true ->
     JS.truthy_str (url_outputFormat b) = true ->
     axios_get (default "" (url_imageUrl b)) = inl message ->
     convert_from_url P axios_get req b w
     = (Returned (url_error 400 ("Failed to download image from URL: " +:+ message)), w)).
Proof.
  unfold convert_from_url, try_catch. split; [| split].
  - by intros ->.
  - by intros -> ->.
  - intros message -> -> Hget. cbn [negb]. cbv zeta. by rewrite Hget.
Qed.

Lemma url_request_is_rejected_before_decoding_witness :
  let body url fmt :=
    {| url_imageUrl := url; url_outputFormat := fmt; url_quality := Absent;
       url_width := Absent; url_height := Absent; url_maintainAspectRatio := Absent;
       url_targetSizeKB := Absent; url_preset := None |} in
  let unreachable := fun _ : string => inl "connect ECONNREFUSED" : string + Buffer in
  let req := Fixture.request [] (Fixture.form None None None None None None None) in
  convert_from_url Fixture.stubborn unreachable req (body None (Some "webp")) initial_world
  = (Returned (url_error 400 "imageUrl is required"), initial_world) /\
  convert_from_url Fixture.stubborn unreachable req (body (Some "http://x/a.png") None)
                   initial_world
  = (Returned (url_error 400 "outputFormat is required"), initial_world) /\
  convert_from_url Fixture.stubborn unreachable req
                   (body (Some "http://x/a.png") (Some "webp")) initial_world
  = (Returned (url_error 400
                 "Failed to download image from URL: connect ECONNREFUSED"),
     initial_world).
Proof.
  intros body unreachable req. split; [| split].
  - apply (url_request_is_rejected_before_decoding Fixture.stubborn unreachable req
             (body None (Some "webp")) initial_world).
    reflexivity.
  - apply (url_request_is_rejected_before_decoding Fixture.stubborn unreachable req
             (body (Some "http://x/a.png") None) initial_world);
      reflexivity.
  - apply (proj2 (proj2 (url_request_is_rejected_before_decoding Fixture.stubborn
                           unreachable req
                           (body (Some "http://x/a.png") (Some "webp")) initial_world))
             "connect ECONNREFUSED");
      reflexivity.
Defined.

(** X24. What was downloaded is decoded before it is judged. A download that
    is not an image is answered with status 500 and the message of
    [getImageInfo]; an image whose format, in lower case, is not one of the
    eight allowed source formats ([svg], for one) is answered with status
    400. In both cases the engine is not entered and nothing is stored. *)
Theorem url_source_is_checked_after_decoding (P : Platform)
    (axios_get : string -> string + Buffer) (req : Request) (b : UrlBody)
    (imageBuffer : Buffer) (w : World) :
  JS.truthy_str (url_imageUrl b) = true ->
  JS.truthy_str (url_outputFormat b) = true ->
  axios_get (default "" (url_imageUrl b)) = inr imageBuffer ->
  (forall message,
     sharp_metadata P imageBuffer = inl message ->
     convert_from_url P axios_get req b w
     = (Returned (url_error 500 ("Failed to get image info: " +:+ message)),
        add_events w [EvMetadata imageBuffer])) /\
  (forall md,
     sharp_metadata P imageBuffer = inr md ->
     JS.toLowerCase (md_format md) ∉ allowedFormats ->
     convert_from_url P axios_get req b w
     = (Returned (url_error 400 ("Unsupported image format: " +:+ md_format md)),
        add_events w [EvMetadata imageBuffer])).
Proof.
  intros Hurl Hfmt Hget. unfold convert_from_url, try_catch.
  rewrite Hurl, Hfmt. cbn [negb]. cbv zeta. rewrite Hget.
  split; [intros message Hmd | intros md Hmd Hformat];
    unfold bind at 1; rewrite getImageInfo_run, Hmd; [reflexivity |].
  cbn [info_of format]. by rewrite bool_decide_eq_false_2 by exact Hformat.
Qed.

(** An [svg], which an upload may be, is refused as a source. *)
Lemma url_source_is_checked_after_decoding_witness :
  let b :=
    {| url_imageUrl := Some "http://x/a.svg"; url_outputFormat := Some "png";
       url_quality := Absent; url_width := Absent; url_height := Absent;
       url_maintainAspectRatio := Absent; url_targetSizeKB := Absent;
       url_preset := None |} in
  let svg := {| md_width := 10; md_height := 10; md_format := "svg"; md_hasAlpha := true |} in
  let P := Fixture.codec svg (fun _ => 2000) in
  let download := fun _ : string => inr [Byte.x3c] : string + Buffer in
  let req := Fixture.request [] (Fixture.form None None None None None None None) in
  "image/svg+xml" ∈ allowedTypes /\
  convert_from_url P download req b initial_world
  = (Returned (url_error 400 "Unsupported image format: svg"),
     add_events initial_world [EvMetadata [Byte.x3c]]).
Proof.
  intros b svg P download req. split; [vm_compute; set_solver |].
  apply (proj2 (url_source_is_checked_after_decoding P download req b [Byte.x3c]
                  initial_world eq_refl eq_refl eq_refl) svg);
    [reflexivity |].
  vm_compute. intros H.
  by repeat (apply elem_of_cons in H as [H | H]; [discriminate |]);
    apply elem_of_nil in H.
Defined.

(** X25. The two kinds of routes read [maintainAspectRatio] differently. On
    the upload routes only the text [false] turns it off; on the URL route
    only the boolean [false] does, so that the text [false], which is what a
    url-encoded body carries, leaves the aspect ratio maintained there. A
    preset changes neither. *)
Theorem maintainAspectRatio_is_read_per_route (body : Body) (b : UrlBody) :
  (maintainAspectRatio (single_options body) = false <->
   body_maintainAspectRatio body = Some "false") /\
  (maintainAspectRatio (batch_options (form_settings body)) = false <->
   body_maintainAspectRatio body = Some "false") /\
  (maintainAspectRatio (url_options b) = false <->
   url_maintainAspectRatio b = Bool false).
Proof.
  unfold single_options, batch_options, url_options.
  rewrite !apply_preset_maintainAspectRatio. cbn [maintainAspectRatio form_settings
    s_maintainAspectRatio s_preset].
  assert (not_false (body_maintainAspectRatio body) = false <->
          body_maintainAspectRatio body = Some "false") as Hnot.
  { unfold not_false. destruct (body_maintainAspectRatio body) as [s |]; [| done].
    destruct (String.eqb_spec s "false") as [-> | Hne]; [done |].
    split; [done | by intros [= ->]]. }
  split; [exact Hnot | split].
  - destruct (not_false _); [| tauto]. split; [done |].
    intros H. by apply Hnot in H.
  - destruct (url_maintainAspectRatio b) as [| s | z | []]; split; done.
Qed.

(** X26. The URL route always answers. With status 200 it has stored exactly
    one file: the buffer that [convertImage] returned for the downloaded
    image and the options of the request, under the name given in the
    response, [url_<uuid>.] followed by the output format in lower case, and
    with the size reported. With any other status it has stored nothing. *)
Theorem convert_from_url_stores_what_it_reports (P : Platform)
    (axios_get : string -> string + Buffer) (req : Request) (b : UrlBody) (w : World) :
  exists response w',
    convert_from_url P axios_get req b w = (Returned response, w') /\
    ((url_status response = 200 /\
      exists imageBuffer result buffer w1,
        axios_get (default "" (url_imageUrl b)) = inr imageBuffer /\
        convertImage P imageBuffer (url_options b)
                     (add_events w [EvMetadata imageBuffer])
        = (Returned buffer, w1) /\
        url_body response = UrlConverted result /\
        conv_name (url_convertedFile result)
        = "url_" +:+ uuidv4 P (uuids w) +:+ "."
          +:+ JS.toLowerCase (default "" (url_outputFormat b)) /\
        conv_size (url_convertedFile result) = buffer_length buffer /\
        temp w' = (temp w ++ [(conv_name (url_convertedFile result), buffer)])%list) \/
     (url_status response <> 200 /\ temp w' = temp w)).
Proof.
  unfold convert_from_url, try_catch.
  destruct (negb (JS.truthy_str (url_imageUrl b)));
    [eexists _, _; split; [reflexivity |]; right; by split |].
  destruct (negb (JS.truthy_str (url_outputFormat b)));
    [eexists _, _; split; [reflexivity |]; right; by split |].
  cbv zeta. destruct (axios_get _) as [message | imageBuffer] eqn:Hget;
    [eexists _, _; split; [reflexivity |]; right; by split |].
  unfold bind at 1. rewrite getImageInfo_run.
  destruct (sharp_metadata P imageBuffer) as [message | md];
    [eexists _, _; split; [reflexivity |]; right; by split |].
  destruct (negb (bool_decide _));
    [eexists _, _; split; [reflexivity |]; right; by split |].
  unfold bind at 1.
  destruct (convertImage_shape P imageBuffer (url_options b)
              (add_events w [EvMetadata imageBuffer]))
    as (outcome & es & Hconv & _ & _ & [message | buffer] & ->);
    rewrite Hconv; cbn [conversion_error];
    [eexists _, _; split; [reflexivity |]; right; by split |].
  unfold bind at 1. rewrite getImageInfo_run.
  destruct (sharp_metadata P buffer) as [message | md'];
    [eexists _, _; split; [reflexivity |]; right; by split |].
  unfold bind at 1, fresh_uuid, bind, saveToTemp. cbn [uuids add_events trace temp].
  destruct (fs_writeFile P _ buffer) as [message |];
    [eexists _, _; split; [reflexivity |]; right; by split |].
  eexists _, _. split; [reflexivity |]. left. split; [reflexivity |].
  eexists imageBuffer, _, buffer, _. by repeat split.
Qed.

(** ** The names of the stored files *)

Lemma append_inj_l s1 s2 t : s1 +:+ t = s2 +:+ t -> s1 = s2.
Proof.
  assert (forall a c, list_ascii_of_string (a +:+ c)
                      = (list_ascii_of_string a ++ list_ascii_of_string c)%list) as Happ.
  { intros a c. induction a as [|x a IH]; [reflexivity |].
    change (String x a +:+ c) with (String x (a +:+ c)). simpl. by rewrite IH. }
  intros H. apply (f_equal list_ascii_of_string) in H. rewrite !Happ in H.
  apply app_inv_tail in H.
  rewrite <- (string_of_list_ascii_of_string s1), <- (string_of_list_ascii_of_string s2).
  by rewrite H.
Qed.

(** What a file of a batch does to the counter of names: a success draws
    one name, the next of the generator, and stores under it. *)
Lemma process_file_uuids P req settings file w :
  (exists result w',
     process_file P req settings file w = (Returned result, w') /\
     uuids w' = S (uuids w) /\
     conv_name (convertedFile result)
     = uuidv4 P (uuids w) +:+ "." +:+ JS.toLowerCase (default "" (s_outputFormat settings))) \/
  (exists message w',
     process_file P req settings file w = (Thrown message, w') /\
     (uuids w <= uuids w' <= S (uuids w))%nat).
Proof.
  unfold process_file, bind. rewrite getImageInfo_run.
  destruct (sharp_metadata P (file_buffer file)) as [message | md];
    [right; eexists _, _; split; [reflexivity |]; simpl; lia |].
  unfold convert_and_store, bind.
  destruct (convertImage_shape P (file_buffer file) (batch_options settings)
              (add_events w [EvMetadata (file_buffer file)]))
    as (outcome & es & -> & _ & _ & [message | buffer] & ->); cbn [conversion_error];
    [right; eexists _, _; split; [reflexivity |]; simpl; lia |].
  rewrite getImageInfo_run.
  destruct (sharp_metadata P buffer) as [message | md'];
    [right; eexists _, _; split; [reflexivity |]; simpl; lia |].
  unfold fresh_uuid, saveToTemp. cbn [uuids add_events trace temp].
  destruct (fs_writeFile P _ buffer) as [message |];
    [right; eexists _, _; split; [reflexivity |]; simpl; lia |].
  left. eexists _, _. split; [reflexivity |]. by split.
Qed.

Lemma batch_outcomes_names_drawn P req settings w files rs w' :
  batch_outcomes P req settings w files rs w' ->
  exists drawn,
    stored_names rs
    = (fun i => uuidv4 P i +:+ "." +:+
                JS.toLowerCase (default "" (s_outputFormat settings))) <$> drawn /\
    NoDup drawn /\
    Forall (fun i => (uuids w <= i < uuids w')%nat) drawn /\
    (uuids w <= uuids w')%nat.
Proof.
  induction 1 as [w | w file files r w1 rs w2 Hitem _ IH].
  - exists []. repeat split; [constructor | constructor | lia].
  - destruct IH as (drawn & Hnames & Hnodup & Hrange & Hle).
    destruct (process_file_uuids P req settings file w)
      as [(result & w' & Hrun & Huuids & Hname) | (message & w' & Hrun & Huuids)];
      destruct Hitem as [result' w'' Hrun' | message' w'' Hrun'];
      rewrite Hrun in Hrun'; simplify_eq.
    + exists (uuids w :: drawn). split; [| split; [| split]].
      * cbn [stored_names omap list_omap]. rewrite Hname.
        change (omap _ rs) with (stored_names rs). by rewrite Hnames.
      * constructor; [| exact Hnodup].
        intros Hin. rewrite Forall_forall in Hrange. apply Hrange in Hin. lia.
      * constructor; [lia |]. eapply Forall_impl; [exact Hrange |]. simpl. lia.
      * lia.
    + exists drawn. split; [exact Hnames |]. split; [exact Hnodup |].
      split; [| lia]. eapply Forall_impl; [exact Hrange |]. simpl. lia.
Qed.

(** X27. When the name generator does not give the same identifier twice,
    the files that one batch stores have pairwise distinct names: no file of
    a batch overwrites another one of the same batch. *)
Theorem batch_files_have_distinct_names (P : Platform) (req : Request)
    (settings : Settings) (w : World) :
  (forall i j, uuidv4 P i = uuidv4 P j -> i = j) ->
  exists report w',
    run_batch P req settings w = (Returned report, w') /\
    NoDup (stored_names (results report)).
Proof.
  intros Hinj. unfold run_batch, bind.
  destruct (batch_loop_run P req settings (req_files req)
              {| acc_results := []; acc_errors := []; acc_totalProcessed := 0 |} w)
    as (rs & w' & Hrs & ->).
  eexists _, w'. split; [reflexivity |]. cbn [batch_report results acc_results app].
  destruct (batch_outcomes_names_drawn _ _ _ _ _ _ _ Hrs) as (drawn & -> & Hnodup & _).
  apply NoDup_fmap_2; [| exact Hnodup].
  intros i j Heq. by apply append_inj_l, Hinj in Heq.
Qed.

(** The decimal numeral of an integer determines it. *)
Lemma show_inj a b : JS.show a = JS.show b -> a = b.
Proof.
  unfold JS.show. intros H.
  assert (forall z, NilZero.int_of_string (NilZero.string_of_int (Z.to_int z))
                    = Some (Z.to_int z)) as Hread.
  { intros z. apply NilZero.isi; destruct z; simpl; try discriminate;
      intros [= Hnil]; by apply Unsigned.to_uint_nonnil in Hnil. }
  apply (f_equal NilZero.int_of_string) in H. rewrite !Hread in H.
  injection H as H. by apply DecimalZ.to_int_inj.
Qed.

Lemma fixture_uuidv4_inj md size_at i j :
  uuidv4 (Fixture.codec md size_at) i = uuidv4 (Fixture.codec md size_at) j -> i = j.
Proof.
  simpl. intros H. apply String.app_inj, show_inj in H. lia.
Qed.

(** Three files, the second of which does not decode. *)
Lemma batch_files_have_distinct_names_witness :
  let req :=
    Fixture.request
      [ Fixture.upload "a.png" [Byte.x01];
        Fixture.upload "broken.png" [Byte.xff];
        Fixture.upload "c.png" [Byte.x02] ]
      (Fixture.form (Some "webp") None None None None None None) in
  exists report w',
    run_batch Fixture.picky req (form_settings (req_body req)) initial_world
    = (Returned report, w') /\
    NoDup (stored_names (results report)).
Proof.
  intros req.
  apply (batch_files_have_distinct_names Fixture.picky req (form_settings (req_body req))
           initial_world).
  exact (fixture_uuidv4_inj (Fixture.opaque_png 100 100) (fun _ => 2000)).
Defined.

(** ** The validation of the output format *)

Lemma unsupported_format_error_default options fmt :
  unsupported_format_error options fmt
    ("Image conversion failed: Unsupported output format: " +:+ JS.toLowerCase fmt).
Proof. exists ("Unsupported output format: " +:+ JS.toLowerCase fmt). by split. Qed.

Lemma batch_options_outputFormat settings :
  outputFormat (batch_options settings)
  = JS.toLowerCase (default "" (s_outputFormat settings)).
Proof. unfold batch_options. by rewrite apply_preset_outputFormat. Qed.

(** With an unsupported output format every file of a batch fails: at the
    decoder, or else in the engine. *)
Lemma process_file_unsupported P req settings fmt file w :
  s_outputFormat settings = Some fmt ->
  initial_case 80 (JS.toLowerCase fmt) = None ->
  exists w',
    process_file P req settings file w
    = (Thrown (match sharp_metadata P (file_buffer file) with
               | inl message => "Failed to get image info: " +:+ message
               | inr _ => "Image conversion failed: Unsupported output format: "
                          +:+ JS.toLowerCase fmt
               end), w').
Proof.
  intros Hfmt Hcase. unfold process_file, bind at 1. rewrite getImageInfo_run.
  destruct (sharp_metadata P (file_buffer file)) as [message | md]; [by eexists |].
  unfold convert_and_store, bind at 1.
  rewrite convertImage_unsupported, batch_options_outputFormat, Hfmt;
    [by eexists |].
  rewrite batch_options_outputFormat, Hfmt. cbn [default from_option id].
  by rewrite toLowerCase_idemp.
Qed.

Lemma batch_outcomes_unsupported P req settings fmt w files rs w' :
  s_outputFormat settings = Some fmt ->
  initial_case 80 (JS.toLowerCase fmt) = None ->
  batch_outcomes P req settings w files rs w' ->
  Forall2 (refused_item P settings fmt) files rs.
Proof.
  intros Hfmt Hcase.
  induction 1 as [| w file files r w1 rs w2 Hitem _ IH]; constructor; [| exact IH].
  destruct (process_file_unsupported P req settings fmt file w Hfmt Hcase) as [w0 Hrun].
  destruct Hitem as [result w' Hok | message w' Hthrown]; [congruence |].
  rewrite Hrun in Hthrown. injection Hthrown as <- _.
  eexists. split; [reflexivity |]. intros md Hmd. rewrite Hmd.
  apply unsupported_format_error_default.
Qed.

Lemma refused_items_all_failed P settings fmt files rs :
  Forall2 (refused_item P settings fmt) files rs ->
  successes rs = 0%nat /\ length (error_lines rs) = length files.
Proof.
  unfold successes. induction 1 as [| file r files rs (message & -> & _) _ IH]; [done |].
  simpl. destruct IH as [-> ->]. done.
Qed.

(** The batch route, once the settings are parsed and have an output
    format: status 200 and the report of the files, taken in order. *)
Lemma convert_batch_run P JSON_parse req settings w :
  req_files req <> [] ->
  batch_settings JSON_parse (req_body req) = Some (Some settings) ->
  JS.truthy_str (s_outputFormat settings) = true ->
  exists rs w',
    batch_outcomes P req settings w (req_files req) rs w' /\
    convert_batch P JSON_parse req w
    = (Returned (json (BatchBody (batch_report
         {| acc_results := rs; acc_errors := error_lines rs;
            acc_totalProcessed := Z.of_nat (successes rs) |}))), w').
Proof.
  intros Hfiles Hsettings Hformat. unfold convert_batch, try_catch, run_batch, bind.
  destruct (req_files req) as [|file files] eqn:Hreq; [done |].
  unfold batch_settings in Hsettings. rewrite Hsettings.
  cbn [mbind option_bind]. rewrite Hformat. cbn [negb default from_option id].
  destruct (batch_loop_run P req settings (file :: files)
              {| acc_results := []; acc_errors := []; acc_totalProcessed := 0 |} w)
    as (rs & w' & Hrs & Hrun).
  rewrite Hrun. exists rs, w'. split; [exact Hrs | reflexivity].
Qed.

(** C6 (as amended). On the three conversion routes only the presence of
    [outputFormat] is validated. A request without it (absent or empty; for a
    batch, in the settings that the route parsed) is answered with status
    400 before any codec or engine call. An [outputFormat] that is present
    is not checked against the supported values: with an unsupported one the
    image is decoded, [convertImage] is entered and fails before any encode,
    and its error is what the client gets: with status 500 on the single and
    on the URL route, and on the batch route with status 200, as the error
    of each file of a report without a converted file. *)
Theorem outputFormat_is_only_checked_for_presence (P : Platform)
    (JSON_parse : string -> option (option Settings))
    (axios_get : string -> string + Buffer)
    (req : Request) (b : UrlBody) (w : World) :
  (JS.truthy_str (body_outputFormat (req_body req)) = false ->
   exists message, convert_image P req w = (Returned (error_response 400 message), w)) /\
  (forall settings,
     batch_settings JSON_parse (req_body req) = Some settings ->
     JS.truthy_str (settings ≫= s_outputFormat) = false ->
     exists message,
       convert_batch P JSON_parse req w = (Returned (error_response 400 message), w)) /\
  (JS.truthy_str (url_outputFormat b) = false ->
   exists message,
     convert_from_url P axios_get req b w = (Returned (url_error 400 message), w)) /\
  (forall file fmt md,
     req_file req = Some file ->
     body_outputFormat (req_body req) = Some fmt -> fmt <> "" ->
     initial_case 80 (JS.toLowerCase fmt) = None ->
     sharp_metadata P (file_buffer file) = inr md ->
     exists message,
       unsupported_format_error (single_options (req_body req)) fmt message /\
       convert_image P req w
       = (Returned (error_response 500 message),
          add_events w [EvMetadata (file_buffer file);
                        EvConvert (file_buffer file) (single_options (req_body req))])) /\
  (forall settings fmt,
     req_files req <> [] ->
     batch_settings JSON_parse (req_body req) = Some (Some settings) ->
     s_outputFormat settings = Some fmt -> fmt <> "" ->
     initial_case 80 (JS.toLowerCase fmt) = None ->
     exists report w',
       convert_batch P JSON_parse req w = (Returned (json (BatchBody report)), w') /\
       totalProcessed report = 0 /\
       totalErrors report = Z.of_nat (length (req_files req)) /\
       Forall2 (refused_item P settings fmt) (req_files req) (results report)) /\
  (forall url fmt imageBuffer md,
     url_imageUrl b = Some url -> url <> "" ->
     url_outputFormat b = Some fmt -> fmt <> "" ->
     initial_case 80 (JS.toLowerCase fmt) = None ->
     axios_get url = inr imageBuffer ->
     sharp_metadata P imageBuffer = inr md ->
     JS.toLowerCase (md_format md) ∈ allowedFormats ->
     exists message,
       unsupported_format_error (url_options b) fmt message /\
       convert_from_url P axios_get req b w
       = (Returned (url_error 500 message),
          add_events w [EvMetadata imageBuffer;
                        EvConvert imageBuffer (url_options b)])).
Proof.
  split; [| split; [| split; [| split; [| split]]]].
  - intros Hmissing. unfold convert_image, try_catch.
    destruct (req_file req); [rewrite Hmissing |]; simpl; eauto.
  - intros settings Hsettings Hmissing. unfold convert_batch, try_catch.
    destruct (req_files req); [simpl; eauto |].
    unfold batch_settings in Hsettings. rewrite Hsettings, Hmissing. simpl. eauto.
  - intros Hmissing. unfold convert_from_url, try_catch.
    destruct (negb (JS.truthy_str (url_imageUrl b))); [simpl; eauto |].
    rewrite Hmissing. simpl. eauto.
  - intros file fmt md Hfile Hfmt Hne Hcase Hmd.
    assert (outputFormat (single_options (req_body req)) = JS.toLowerCase fmt) as Hof.
    { unfold single_options. rewrite apply_preset_outputFormat. simpl. by rewrite Hfmt. }
    assert (JS.truthy_str (body_outputFormat (req_body req)) = true) as Hpresent
      by (rewrite Hfmt; by destruct fmt).
    eexists. split; [apply unsupported_format_error_default |].
    unfold convert_image, try_catch. rewrite Hfile. cbv zeta. rewrite Hpresent.
    cbn [negb]. unfold bind at 1. rewrite getImageInfo_run, Hmd.
    fold (single_options (req_body req)).
    unfold bind at 1. unfold convert_and_store, bind at 1.
    rewrite convertImage_unsupported by (by rewrite Hof, toLowerCase_idemp).
    rewrite Hof, add_events_app. reflexivity.
  - intros settings fmt Hfiles Hsettings Hfmt Hne Hcase.
    destruct (convert_batch_run P JSON_parse req settings w Hfiles Hsettings)
      as (rs & w' & Hrs & Hrun); [rewrite Hfmt; by destruct fmt |].
    pose proof (batch_outcomes_unsupported _ _ _ _ _ _ _ _ Hfmt Hcase Hrs) as Hall.
    destruct (refused_items_all_failed _ _ _ _ _ Hall) as [Hnone Hlen].
    eexists _, w'. split; [exact Hrun |].
    unfold batch_report. cbn [results totalProcessed totalErrors acc_results
                              acc_errors acc_totalProcessed].
    rewrite Hnone, Hlen. by repeat split.
  - intros url fmt imageBuffer md Hurl Hurl_ne Hfmt Hne Hcase Hget Hmd Hsource.
    assert (outputFormat (url_options b) = JS.toLowerCase fmt) as Hof.
    { unfold url_options. rewrite apply_preset_outputFormat. simpl. by rewrite Hfmt. }
    eexists. split; [apply unsupported_format_error_default |].
    unfold convert_from_url, try_catch. rewrite Hurl, Hfmt.
    replace (JS.truthy_str (Some url)) with true by (by destruct url).
    replace (JS.truthy_str (Some fmt)) with true by (by destruct fmt).
    cbn [negb default from_option id]. cbv zeta. rewrite Hget.
    unfold bind at 1. rewrite getImageInfo_run, Hmd.
    cbn [info_of format]. rewrite bool_decide_eq_true_2 by exact Hsource.
    cbn [negb]. unfold bind at 1.
    rewrite convertImage_unsupported by (by rewrite Hof, toLowerCase_idemp).
    rewrite Hof, add_events_app. reflexivity.
Qed.

(** An empty form on the single route, and [bmp] for a decodable file on the
    single and on the batch route. *)
Lemma outputFormat_is_only_checked_for_presence_witness :
  let file := Fixture.upload "a.png" [Byte.x01] in
  let empty := Fixture.request [file] (Fixture.form None None None None None None None) in
  let bmp := Fixture.request [file] (Fixture.form (Some "bmp") None None None None None None) in
  let b :=
    {| url_imageUrl := Some "http://x/a.png"; url_outputFormat := Some "bmp";
       url_quality := Absent; url_width := Absent; url_height := Absent;
       url_maintainAspectRatio := Absent; url_targetSizeKB := Absent;
       url_preset := None |} in
  let axios_get := fun _ : string => @inr string Buffer [Byte.x01] in
  (exists message,
     convert_image Fixture.stubborn empty initial_world
     = (Returned (error_response 400 message), initial_world)) /\
  (exists message,
     unsupported_format_error (single_options (req_body bmp)) "bmp" message /\
     convert_image Fixture.stubborn bmp initial_world
     = (Returned (error_response 500 message),
        add_events initial_world
          [EvMetadata [Byte.x01];
           EvConvert [Byte.x01] (single_options (req_body bmp))])) /\
  (exists report w',
     convert_batch Fixture.stubborn Fixture.no_json bmp initial_world
     = (Returned (json (BatchBody report)), w') /\
     totalProcessed report = 0 /\
     totalErrors report = Z.of_nat (length (req_files bmp)) /\
     Forall2 (refused_item Fixture.stubborn (form_settings (req_body bmp)) "bmp")
             (req_files bmp) (results report)).
Proof.
  intros file empty bmp b axios_get. split; [| split].
  - apply (outputFormat_is_only_checked_for_presence
             Fixture.stubborn Fixture.no_json axios_get empty b initial_world).
    reflexivity.
  - apply (proj1 (proj2 (proj2 (proj2 (outputFormat_is_only_checked_for_presence
             Fixture.stubborn Fixture.no_json axios_get bmp b initial_world))))
             file "bmp" (Fixture.opaque_png 100 100));
      [reflexivity | reflexivity | discriminate | reflexivity | reflexivity].
  - apply (proj1 (proj2 (proj2 (proj2 (proj2 (outputFormat_is_only_checked_for_presence
             Fixture.stubborn Fixture.no_json axios_get bmp b initial_world)))))
             (form_settings (req_body bmp)) "bmp");
      [discriminate | reflexivity | reflexivity | discriminate | reflexivity].
Defined.

(** C6 (as stated) fails. [bmp] is not a supported output format; the request
    is not rejected by validation: the file is decoded, [convertImage] is
    entered, and the error of its [default] case comes back, with status 500
    on the single route and, on the batch route, as the error of the file in
    a report with status 200. *)
Lemma unsupported_format_reaches_the_engine :
  let req :=
    Fixture.request [Fixture.upload "a.png" [Byte.x01]]
      (Fixture.form (Some "bmp") None None None None None None) in
  let run := convert_image Fixture.stubborn req initial_world in
  let batch := convert_batch Fixture.stubborn Fixture.no_json req initial_world in
  (run.1 = Returned (error_response 500
             "Image conversion failed: Unsupported output format: bmp") /\
   trace run.2
   = [ EvMetadata [Byte.x01];
       EvConvert [Byte.x01]
         (Fixture.options "bmp" (JS.Int 80) JS.Undefined JS.Undefined true JS.Undefined) ]) /\
  (batch.1
   = Returned (json (BatchBody
       {| results :=
            [Failed "a.png" 1 "image/png"
               "Image conversion failed: Unsupported output format: bmp"];
          totalProcessed := 0;
          totalErrors := 1;
          errors :=
            Some ["a.png: Image conversion failed: Unsupported output format: bmp"] |})) /\
   trace batch.2
   = [ EvMetadata [Byte.x01];
       EvConvert [Byte.x01]
         (Fixture.options "bmp" (JS.Int 80) JS.Undefined JS.Undefined true JS.Undefined) ]).
Proof. vm_compute. repeat split; reflexivity. Qed.
